(** * SmartQuiz evaluation tool: the answer-evaluation engine

    A shallow embedding of [src/semantic_evaluator.py] (class
    [SemanticEvaluator]), of [src/text_processor.py] (class
    [TextProcessor]) and of the start-up and the two evaluation endpoints
    of [src/main.py].

    Conventions of the embedding.
    - A Python [str] is a Rocq [string]; a character is read as the code
      point of the same number (U+0000 to U+00FF). Text with a character
      above U+00FF is outside the embedding: there [str.lower] can
      lengthen a text and can leave an upper-case character in place.
    - A Python [float] is an exact rational ([Q]); rounding is not modelled.
      [len] results are [nat], injected into [Q] where Python divides.
    - A Python [set] of strings is a [gset string]; [list(s)] is
      [elements s] (Python leaves the order unspecified).
    - A [dict] with a fixed choice of keys is a record whose optional keys
      are [option] fields, and [d.get(k, v)] is [default v (k d)].
    - A call that may raise returns a [result]. *)

From Stdlib Require Import QArith Qminmax Lqa.
From Stdlib Require Import Ascii String DecimalString.
From stdpp Require Import gmap strings list sorting.

(** ** Python string primitives *)

Module Py.

Definition code (c : ascii) : N := N_of_ascii c.

Definition between (lo hi : N) (c : ascii) : bool :=
  ((lo <=? code c) && (code c <=? hi))%N.

Definition is_code (n : N) (c : ascii) : bool := (code c =? n)%N.

(** [str.isspace] on one character, also the class [\s] of [re]. *)
Definition isspace (c : ascii) : bool :=
  between 9 13 c || between 28 32 c || is_code 133 c || is_code 160 c.

(** [str.isupper] on one character. *)
Definition isupper (c : ascii) : bool :=
  between 65 90 c || (between 192 222 c && negb (is_code 215 c)).

Definition isdigit (c : ascii) : bool := between 48 57 c.

Definition isalpha (c : ascii) : bool :=
  between 65 90 c || between 97 122 c
  || is_code 170 c || is_code 181 c || is_code 186 c
  || (between 192 255 c && negb (is_code 215 c) && negb (is_code 247 c)).

(** The class [\w] of [re] on a [str] pattern: alphanumeric or [_]. *)
Definition isword (c : ascii) : bool :=
  isalpha c || isdigit c || is_code 95 c
  || is_code 178 c || is_code 179 c || is_code 185 c || between 188 190 c.

Definition lower_char (c : ascii) : ascii :=
  if isupper c then ascii_of_N (code c + 32) else c.

(** [s.lower()] on text of U+0000 to U+00FF, where it maps one character
    to one character. *)
Fixpoint lower (s : string) : string :=
  match s with
  | EmptyString => EmptyString
  | String c s' => String (lower_char c) (lower s')
  end.

(** [len(s)] *)
Definition len (s : string) : nat := String.length s.

Fixpoint lstrip (s : string) : string :=
  match s with
  | EmptyString => EmptyString
  | String c s' => if isspace c then lstrip s' else s
  end.

Definition rstrip (s : string) : string :=
  String.rev (lstrip (String.rev s)).

(** [s.strip()] *)
Definition strip (s : string) : string := rstrip (lstrip s).

(** Truth value of a [str]: the empty string is false. *)
Definition truthy (s : string) : bool :=
  match s with EmptyString => false | String _ _ => true end.

Definition flush (cur : string) : list string :=
  match cur with
  | EmptyString => []
  | String _ _ => [String.rev cur]
  end.

(** [s.split()] with no separator: the maximal runs of characters that
    are not white space. [cur] is the current run, reversed. *)
Fixpoint split_go (cur : string) (s : string) : list string :=
  match s with
  | EmptyString => flush cur
  | String c s' =>
      if isspace c then flush cur ++ split_go EmptyString s'
      else split_go (String c cur) s'
  end.

Definition split (s : string) : list string := split_go EmptyString s.

(** [s.split(sep)] for a one-character separator: always at least one
    piece, empty pieces are kept. *)
Fixpoint split_on (sep : ascii) (s : string) : list string :=
  match s with
  | EmptyString => [EmptyString]
  | String c s' =>
      if Ascii.eqb c sep then EmptyString :: split_on sep s'
      else match split_on sep s' with
           | w :: ws => String c w :: ws
           | [] => [String c EmptyString]
           end
  end.

(** [sep.join(parts)] *)
Fixpoint join (sep : string) (parts : list string) : string :=
  match parts with
  | [] => EmptyString
  | [p] => p
  | p :: ps => p +:+ sep +:+ join sep ps
  end.

(** [re.sub(p+, ' ', s)] for a character class [p]: every maximal run
    of characters of the class becomes one space. *)
Fixpoint sub_runs (p : ascii → bool) (inrun : bool) (s : string) : string :=
  match s with
  | EmptyString => EmptyString
  | String c s' =>
      if p c then
        if inrun then sub_runs p true s'
        else String " "%char (sub_runs p true s')
      else String c (sub_runs p false s')
  end.

(** [re.sub(p, '', s)] for a character class [p]. *)
Fixpoint delete_chars (p : ascii → bool) (s : string) : string :=
  match s with
  | EmptyString => EmptyString
  | String c s' =>
      if p c then delete_chars p s' else String c (delete_chars p s')
  end.

(** [any(p(c) for c in s)] *)
Fixpoint any (p : ascii → bool) (s : string) : bool :=
  match s with
  | EmptyString => false
  | String c s' => p c || any p s'
  end.

(** [all(p(c) for c in s)] *)
Fixpoint all (p : ascii → bool) (s : string) : bool :=
  match s with
  | EmptyString => true
  | String c s' => p c && all p s'
  end.

(** [str(n)] for a non-negative [int]. *)
Definition str_of_nat (n : nat) : string :=
  NilEmpty.string_of_uint (Nat.to_uint n).

(** [x in s] for a set [s]. *)
Definition mem (x : string) (s : gset string) : bool := bool_decide (x ∈ s).

(** One step of a stable sort by decreasing length: [x] goes in front of
    the first element that is not longer than it. *)
Fixpoint insert_by_len (x : string) (l : list string) : list string :=
  match l with
  | [] => [x]
  | y :: l' =>
      if (len y <=? len x)%nat then x :: y :: l'
      else y :: insert_by_len x l'
  end.

(** [sorted(l, key=len, reverse=True)], also [l.sort(key=len,
    reverse=True)]: longest first, equal lengths in the order of [l]. *)
Definition sorted_by_len_reverse (l : list string) : list string :=
  foldr insert_by_len [] l.

(** The number of [i] in [range(len(words) - 1)] with
    [words[i] == words[i + 1]]. *)
Fixpoint count_adjacent_equal (words : list string) : nat :=
  match words with
  | x :: (y :: _) as rest =>
      (if String.eqb x y then 1 else 0) + count_adjacent_equal rest
  | _ => 0
  end.

(** [s and not s[0].isupper()] for a [str] [s]. *)
Definition starts_without_upper (s : string) : bool :=
  match s with
  | EmptyString => false
  | String c _ => negb (isupper c)
  end.

End Py.

(** ** Numbers *)

(** A [len] result where Python does float arithmetic with it. *)
Definition Qnat (n : nat) : Q := inject_Z (Z.of_nat n).

(** [x < y] on floats, as a test. *)
Definition Qltb (x y : Q) : bool := negb (Qle_bool y x).

(** [x >= y] on floats, as a test. *)
Definition Qgeb (x y : Q) : bool := Qle_bool y x.

(** ** Exceptions *)

(** What [except Exception] can catch: the [RuntimeError] that [evaluate]
    raises itself, and any other exception, named by its message. *)
Inductive exn : Type :=
  | RuntimeError (msg : string)
  | Exception (msg : string).

Inductive result (A : Type) : Type :=
  | Return (a : A)
  | Raise (e : exn).
Arguments Return {A} a.
Arguments Raise {A} e.

Global Instance result_ret : MRet result := λ A a, Return a.
Global Instance result_bind : MBind result := λ A B f m,
  match m with
  | Return a => f a
  | Raise e => Raise e
  end.

(** [try: body except Exception: handler] *)
Definition try_except {A} (body : result A) (handler : exn → result A)
  : result A :=
  match body with
  | Return a => Return a
  | Raise e => handler e
  end.

(** ** [src/text_processor.py]: class [TextProcessor] *)

Module TextProcessor.

(** The stop words set in [__init__] when NLTK is not available
    (lines 55-62). *)
Definition fallback_stop_words : gset string :=
  list_to_set
    ["the"; "a"; "an"; "and"; "or"; "but"; "in"; "on"; "at"; "to"; "for";
     "of"; "with"; "by"; "is"; "are"; "was"; "were"; "be"; "been"; "have";
     "has"; "had"; "do"; "does"; "did"; "will"; "would"; "could"; "should";
     "this"; "that"; "these"; "those"; "i"; "you"; "he"; "she"; "it"; "we";
     "they"; "me"; "him"; "her"; "us"; "them"; "my"; "your"; "his"; "her";
     "its"; "our"; "their"].

(** [_get_common_words] (lines 363-375). *)
Definition _get_common_words : gset string :=
  list_to_set
    ["about"; "after"; "again"; "against"; "all"; "also"; "any"; "because";
     "been"; "before"; "being"; "between"; "both"; "but"; "came"; "can";
     "come"; "could"; "did"; "each"; "even"; "every"; "first"; "from";
     "get"; "got"; "had"; "has"; "have"; "here"; "how"; "into"; "just";
     "like"; "made"; "make"; "many"; "may"; "more"; "most"; "new"; "now";
     "only"; "other"; "over"; "said"; "same"; "see"; "some"; "such";
     "take"; "than"; "them"; "through"; "time"; "two"; "up"; "use";
     "very"; "want"; "water"; "way"; "well"; "went"; "were"; "what";
     "when"; "where"; "which"; "while"; "who"; "why"; "work"; "would"].

(** The class [[.,!?;:-]] of the two patterns of [preprocess]. *)
Definition is_basic_punct (c : ascii) : bool :=
  Py.is_code 46 c || Py.is_code 44 c || Py.is_code 33 c || Py.is_code 63 c
  || Py.is_code 59 c || Py.is_code 58 c || Py.is_code 45 c.

(** The class [[^\w\s.,!?;:-]]. *)
Definition is_special (c : ascii) : bool :=
  negb (Py.isword c || Py.isspace c || is_basic_punct c).

Section WithStopWords.

(** [self.stop_words]: the NLTK English list when it could be loaded,
    [fallback_stop_words] otherwise. *)
Variable stop_words : gset string.

(** [preprocess] (lines 64-96). *)
Definition preprocess (text : string) (remove_stopwords : bool) : string :=
  if negb (Py.truthy text) then ""
  else
    let text := Py.lower text in
    let text := Py.strip (Py.sub_runs Py.isspace false text) in
    let text := Py.delete_chars is_special text in
    let text := Py.sub_runs is_basic_punct false text in
    let text :=
      if remove_stopwords then
        let words := Py.split text in
        let words := filter (λ word, ¬ word ∈ stop_words) words in
        Py.join " " words
      else text in
    Py.strip text.

(** The test of the first loop of [extract_important_terms]
    (lines 152-162): is [word] appended to [important_terms]? *)
Definition is_important (word : string) : bool :=
  if (Py.len word <=? 2)%nat || Py.mem word stop_words then false
  else (4 <? Py.len word)%nat
       || Py.any Py.isupper word
       || negb (Py.mem word _get_common_words).

(** One round of the second loop (lines 167-170) on the state
    [(seen, unique_terms)]. *)
Definition dedup_step (st : gset string * list string) (term : string)
  : gset string * list string :=
  let '(seen, unique_terms) := st in
  if Py.mem term seen then st
  else ({[term]} ∪ seen, unique_terms ++ [term]).

(** [extract_important_terms] (lines 128-172). *)
Definition extract_important_terms (text : string) : list string :=
  if negb (Py.truthy text) then []
  else
    let processed := preprocess text false in
    let words := Py.split processed in
    let important_terms := List.filter is_important words in
    let '(_, unique_terms) :=
      fold_left dedup_step important_terms (∅, []) in
    take 10 unique_terms.

(** [extract_keywords] (lines 98-126). *)
Definition extract_keywords (user_answer correct_answer : string)
  : list string :=
  let user_processed := preprocess user_answer true in
  let correct_processed := preprocess correct_answer true in
  let user_words : gset string := list_to_set (Py.split user_processed) in
  let correct_words : gset string :=
    list_to_set (Py.split correct_processed) in
  let keywords := user_words ∩ correct_words in
  let keywords :=
    List.filter (λ word, (2 <? Py.len word)%nat) (elements keywords) in
  Py.sorted_by_len_reverse keywords.

(** [calculate_text_similarity] (lines 174-203). *)
Definition calculate_text_similarity (text1 text2 : string) : Q :=
  if negb (Py.truthy text1) || negb (Py.truthy text2) then 0%Q
  else
    let processed1 := preprocess text1 true in
    let processed2 := preprocess text2 true in
    let words1 : gset string := list_to_set (Py.split processed1) in
    let words2 : gset string := list_to_set (Py.split processed2) in
    if (size words1 =? 0)%nat || (size words2 =? 0)%nat then 0%Q
    else
      let intersection := words1 ∩ words2 in
      let union := words1 ∪ words2 in
      if (0 <? size union)%nat
      then (Qnat (size intersection) / Qnat (size union))%Q
      else 0%Q.

(** [_has_grammar_issues] (lines 377-408). *)
Definition _has_grammar_issues (text : string) : bool :=
  let issues := 0%nat in
  let words := Py.split (Py.lower text) in
  let issues := (issues + Py.count_adjacent_equal words)%nat in
  let sentences := Py.split_on "." text in
  let issues :=
    (issues
     + length (List.filter
                 (λ sentence, Py.starts_without_upper (Py.strip sentence))
                 sentences))%nat in
  let issues :=
    (issues
     + length (List.filter
                 (λ sentence, (30 <? length (Py.split sentence))%nat)
                 sentences))%nat in
  (2 <? issues)%nat.

(** One round of the loop that removes duplicates (lines 263-265). *)
Definition unique_step (unique_suggestions : list string)
    (suggestion : string) : list string :=
  if bool_decide (suggestion ∈ unique_suggestions) then unique_suggestions
  else unique_suggestions ++ [suggestion].

(** [generate_suggestions] (lines 205-267). *)
Definition generate_suggestions
    (user_answer correct_answer : string) (score : Q) : list string :=
  let suggestions : list string := [] in
  if negb (Py.truthy (Py.strip user_answer)) then
    suggestions ++ ["Provide a complete answer to the question."]
  else
    let user_length := Py.len user_answer in
    let correct_length := Py.len correct_answer in
    let suggestions :=
      if Qltb (Qnat user_length) (Qnat correct_length * (3#10))%Q then
        suggestions ++ ["Provide more detailed explanation with examples."]
      else if Qltb (Qnat correct_length * (25#10))%Q (Qnat user_length) then
        suggestions ++ ["Try to be more concise while keeping key points."]
      else suggestions in
    let user_keywords : gset string :=
      list_to_set (Py.split (preprocess user_answer true)) in
    let correct_keywords : gset string :=
      list_to_set (Py.split (preprocess correct_answer true)) in
    let missing_keywords := correct_keywords ∖ user_keywords in
    let suggestions :=
      if (0 <? size missing_keywords)%nat then
        let important_missing :=
          take 3
            (Py.sorted_by_len_reverse
               (List.filter (λ word, (3 <? Py.len word)%nat)
                  (elements missing_keywords))) in
        match important_missing with
        | _ :: _ =>
            suggestions
              ++ ["Consider including these concepts: "
                  +:+ Py.join ", " important_missing]
        | [] => suggestions
        end
      else suggestions in
    let suggestions :=
      if Qltb score (3#10) then
        (suggestions
           ++ ["Review the fundamental concepts of this topic."])
          ++ ["Make sure you understand what the question is asking."]
      else if Qltb score (6#10) then
        (suggestions
           ++ ["You have the basic idea, but add more specific details."])
          ++ ["Include examples or explanations to support your points."]
      else if Qltb score (8#10) then
        suggestions
          ++ ["Good understanding! Add a bit more depth to your explanation."]
      else suggestions in
    let suggestions :=
      if _has_grammar_issues user_answer then
        suggestions ++ ["Check your grammar and sentence structure."]
      else suggestions in
    let unique_suggestions := fold_left unique_step suggestions [] in
    take 5 unique_suggestions.

End WithStopWords.

(** An NLTK [PorterStemmer]; no method of the class uses it. *)
Inductive PorterStemmer : Type := PorterStemmer_object.

(** A [TextProcessor] object: the two attributes that [__init__] sets on
    [self]. The methods above read [self.stop_words] only. *)
Record t : Type := {
  self_stemmer : option PorterStemmer;
  self_stop_words : gset string
}.

Section Init.

(** What [__init__] gets from NLTK (lines 43-47): the outcome of the two
    downloads, of [PorterStemmer()] and of [stopwords.words('english')]. *)
Variable nltk_download : result unit.
Variable new_PorterStemmer : result PorterStemmer.
Variable stopwords_words : result (list string).

(** The text of an [UnboundLocalError] for a name, which depends on the
    version of Python. *)
Variable unbound_local : string → string.

(** The local variables of a call, by name: a name that the body of the
    function assigns anywhere (and does not declare [global]) is local to
    it, and reading it before it has a value raises [UnboundLocalError],
    whatever the module binds to that name. *)
Definition read_local (locals : gmap string bool) (name : string)
  : result bool :=
  match locals !! name with
  | Some value => Return value
  | None => Raise (Exception (unbound_local name))
  end.

(** The [try] block of [__init__] (lines 41-48): the attributes it leaves
    on [self] and how it ends. *)
Definition init_try (self : t) : t * result unit :=
  match nltk_download with
  | Raise e => (self, Raise e)
  | Return _ =>
      match new_PorterStemmer with
      | Raise e => (self, Raise e)
      | Return stemmer =>
          let self := {| self_stemmer := Some stemmer;
                         self_stop_words := self_stop_words self |} in
          match stopwords_words with
          | Raise e => (self, Raise e)
          | Return words =>
              ({| self_stemmer := self_stemmer self;
                  self_stop_words := list_to_set words |}, Return ())
          end
      end
  end.

(** [__init__] (lines 36-62). Line 51 assigns [NLTK_AVAILABLE], so the
    name is a local variable of [__init__]; the flag of that name that
    the module sets in lines 10-18 is not what line 40 reads. *)
Definition __init__ : result t :=
  let locals : gmap string bool := ∅ in
  let self := {| self_stemmer := None; self_stop_words := ∅ |} in
  match read_local locals "NLTK_AVAILABLE" with
  | Raise e => Raise e
  | Return available =>
      let '(self, locals) :=
        (if available then
           match init_try self with
           | (self, Return _) => (self, locals)
           | (self, Raise e) => (self, <["NLTK_AVAILABLE" := false]> locals)
           end
         else (self, locals)) : t * gmap string bool in
      let self :=
        if bool_decide (self_stop_words self = ∅) then
          {| self_stemmer := self_stemmer self;
             self_stop_words := fallback_stop_words |}
        else self in
      Return self
  end.

End Init.

End TextProcessor.

(** ** [src/semantic_evaluator.py]: class [SemanticEvaluator] *)

Module SemanticEvaluator.

Local Open Scope Q_scope.

(** The [detailed_analysis] dict. Its keys differ between the three
    places that build it; [length_analysis] is in all of them. *)
Record Analysis : Type := {
  length_analysis : string;
  length_ratio : option Q;
  keyword_coverage : option Q;
  keywords_found : option (list string);
  keywords_missing : option (list string);
  semantic_coherence : option Q;
  word_overlap : option nat;
  total_keywords : option nat
}.

(** The dict that [evaluate] returns. *)
Record Evaluation : Type := {
  score : Q;
  confidence : Q;
  feedback : string;
  semantic_similarity : Q;
  detailed_analysis : Analysis
}.

(** [self.model], seen through its one use (lines 145-153):
    [encode] the pair [correct_answer, user_answer] and take the
    [cosine_similarity] of the two embeddings. Either step may raise. *)
Definition Model : Type := string → string → result Q.

(** The fields of [self] that [evaluate] and [load_model] read or
    write. *)
Record t : Type := {
  model : option Model;
  _loaded : bool
}.

(** [__init__] (lines 29-34). *)
Definition __init__ : t := {| model := None; _loaded := false |}.

(** [is_loaded] (lines 64-66). *)
Definition is_loaded (self : t) : bool := _loaded self.

(** Truth value of [self.model]. *)
Definition has_model (self : t) : bool :=
  match model self with Some _ => true | None => false end.

(** The methods that [evaluate] calls, directly or through
    [_evaluate_with_bert]. *)
Inductive Method : Type :=
  | AnalyzeAnswerComponents
  | CalculateFinalScore
  | GenerateFeedback
  | CalculateConfidence
  | EvaluateFallback.

(** [_extract_keywords] (lines 293-306). *)
Definition _extract_keywords (text : string) : gset string :=
  let words := Py.split (Py.lower text) in
  let stop_words : gset string :=
    list_to_set
      ["the"; "a"; "an"; "and"; "or"; "but"; "in"; "on"; "at"; "to"; "for";
       "of"; "with"; "by"; "is"; "are"; "was"; "were"; "be"; "been"; "have";
       "has"; "had"; "do"; "does"; "did"; "will"; "would"; "could"; "should";
       "this"; "that"; "these"; "those"; "i"; "you"; "he"; "she"; "it"; "we";
       "they"] in
  list_to_set
    (List.filter
       (λ word, (2 <? Py.len word)%nat && negb (Py.mem word stop_words))
       words).

(** [_analyze_answer_components] (lines 248-291). *)
Definition _analyze_answer_components
    (question correct_answer user_answer : string) : Analysis :=
  let correct_length := Py.len correct_answer in
  let user_length := Py.len user_answer in
  let length_ratio := Qnat user_length / Qnat (Nat.max correct_length 1) in
  let length_analysis :=
    if Qltb length_ratio (3#10) then "Answer is too short"
    else if Qltb 2 length_ratio then "Answer is too long"
    else "Answer length is appropriate" in
  let correct_keywords := _extract_keywords correct_answer in
  let user_keywords := _extract_keywords user_answer in
  let keyword_coverage :=
    if (0 <? size correct_keywords)%nat
    then Qnat (size (correct_keywords ∩ user_keywords))
         / Qnat (size correct_keywords)
    else 0 in
  let sentences := Py.split_on "." user_answer in
  let coherence_score :=
    Qmin (Qnat (length (List.filter
                          (λ s, (10 <? Py.len (Py.strip s))%nat) sentences))
          / Qnat (Nat.max (length sentences) 1))
         1 in
  {| length_analysis := length_analysis;
     length_ratio := Some length_ratio;
     keyword_coverage := Some keyword_coverage;
     keywords_found := Some (elements (correct_keywords ∩ user_keywords));
     keywords_missing := Some (elements (correct_keywords ∖ user_keywords));
     semantic_coherence := Some coherence_score;
     word_overlap := None;
     total_keywords := None |}.

(** [_calculate_final_score] (lines 308-339). The [if criteria: pass]
    of lines 335-337 does nothing. *)
Definition _calculate_final_score
    (semantic_similarity : Q) (analysis : Analysis)
    (criteria : option (list string)) : Q :=
  let score := semantic_similarity in
  let keyword_coverage := default 0 (keyword_coverage analysis) in
  let score := score * (7#10) + keyword_coverage * (3#10) in
  let length_ratio := default 1 (length_ratio analysis) in
  let score :=
    if Qltb length_ratio (3#10) then score * (8#10)
    else if Qltb 3 length_ratio then score * (9#10)
    else score in
  let coherence := default 1 (semantic_coherence analysis) in
  let score := score * (9#10) + coherence * (1#10) in
  Qmin score 1.

(** [_generate_feedback] (lines 341-378). *)
Definition _generate_feedback
    (score semantic_similarity : Q) (analysis : Analysis) : string :=
  let feedback_parts : list string := [] in
  let feedback_parts :=
    if Qgeb score (9#10) then
      feedback_parts ++ ["Excellent answer! You demonstrate a thorough understanding of the concept."]
    else if Qgeb score (7#10) then
      feedback_parts ++ ["Good answer! You show a solid grasp of the main ideas."]
    else if Qgeb score (5#10) then
      feedback_parts ++ ["Fair answer. You understand some key concepts but could improve."]
    else
      feedback_parts ++ ["Your answer needs improvement. Please review the topic more carefully."] in
  let keyword_coverage := default 0 (keyword_coverage analysis) in
  let feedback_parts :=
    if Qltb keyword_coverage (5#10) then
      let missing_keywords := default [] (keywords_missing analysis) in
      match missing_keywords with
      | _ :: _ =>
          feedback_parts
            ++ ["Consider including these important concepts: "
                +:+ Py.join ", " (take 3 missing_keywords) +:+ "."]
      | [] => feedback_parts
      end
    else feedback_parts in
  let length_ratio := default 1 (length_ratio analysis) in
  let feedback_parts :=
    if Qltb length_ratio (3#10) then
      feedback_parts ++ ["Your answer could be more detailed and comprehensive."]
    else if Qltb (25#10) length_ratio then
      feedback_parts ++ ["Try to be more concise while maintaining the key points."]
    else feedback_parts in
  let feedback_parts :=
    if Qltb semantic_similarity (4#10) then
      feedback_parts ++ ["Your answer doesn't closely match the expected response. Review the question and try again."]
    else feedback_parts in
  Py.join " " feedback_parts.

(** [_evaluate_fallback] (lines 183-246). *)
Definition _evaluate_fallback
    (question correct_answer user_answer : string) (max_marks : Z)
    (criteria : option (list string)) : Evaluation :=
  let correct_words : gset string :=
    list_to_set (Py.split (Py.lower correct_answer)) in
  let user_words : gset string :=
    list_to_set (Py.split (Py.lower user_answer)) in
  let stop_words : gset string :=
    list_to_set
      ["the"; "a"; "an"; "and"; "or"; "but"; "in"; "on"; "at"; "to"; "for";
       "of"; "with"; "by"; "is"; "are"; "was"; "were"] in
  let correct_words := correct_words ∖ stop_words in
  let user_words := user_words ∖ stop_words in
  let word_overlap :=
    if (size correct_words =? 0)%nat then 0
    else
      let common_words := correct_words ∩ user_words in
      Qnat (size common_words) / Qnat (size correct_words) in
  let length_ratio :=
    Qmin (Qnat (Py.len user_answer)
          / Qnat (Nat.max (Py.len correct_answer) 1))
         1 in
  let semantic_similarity :=
    word_overlap * (7#10) + length_ratio * (3#10) in
  let analysis :=
    {| length_analysis :=
         "Answer length: " +:+ Py.str_of_nat (Py.len user_answer)
         +:+ " chars (expected ~" +:+ Py.str_of_nat (Py.len correct_answer)
         +:+ ")";
       length_ratio := None;
       keyword_coverage := Some word_overlap;
       keywords_found := None;
       keywords_missing := None;
       semantic_coherence := Some semantic_similarity;
       word_overlap := Some (size (correct_words ∩ user_words));
       total_keywords := Some (size correct_words) |} in
  let score := Qmin semantic_similarity 1 in
  let feedback :=
    if Qgeb score (8#10) then
      "Excellent answer! Shows comprehensive understanding."
    else if Qgeb score (6#10) then
      "Good answer with most key concepts covered."
    else if Qgeb score (4#10) then
      "Fair answer but missing some important points."
    else
      "Answer needs significant improvement. Please review the topic." in
  let confidence := Qmin (score * 80) 85 in
  {| score := score;
     confidence := confidence;
     feedback := feedback;
     semantic_similarity := semantic_similarity;
     detailed_analysis := analysis |}.

(** The dict returned for an empty answer (lines 106-116). *)
Definition empty_answer : Evaluation :=
  {| score := 0;
     confidence := 100;
     feedback := "No answer provided.";
     semantic_similarity := 0;
     detailed_analysis :=
       {| length_analysis := "Empty answer";
          length_ratio := None;
          keyword_coverage := Some 0;
          keywords_found := None;
          keywords_missing := None;
          semantic_coherence := Some 0;
          word_overlap := None;
          total_keywords := None |} |}.

(** One entry of the list given to [batch_evaluate]: a dict whose values
    have the types of the parameters of [evaluate]; a key may be
    missing. *)
Record EvalItem : Type := {
  item_question : option string;
  item_correct_answer : option string;
  item_user_answer : option string;
  item_max_marks : option Z;
  item_criteria : option (list string)
}.

(** [d[key]]: a missing key raises [KeyError(key)], whose text is the key
    in quotes. *)
Definition getitem {A : Type} (key : string) (value : option A) : result A :=
  match value with
  | Some v => Return v
  | None => Raise (Exception ("'" +:+ key +:+ "'"))
  end.

Section Engine.

(** The module-level flag set by the guarded import (lines 12-18). *)
Variable TRANSFORMERS_AVAILABLE : bool.

(** Which method calls raise, and what. The methods of the source
    raise nothing on [str] arguments, which is [no_faults] below; a
    defect in a method is a [faults] that names it. *)
Variable faults : Method → option exn.

Definition call {A : Type} (m : Method) (v : A) : result A :=
  match faults m with
  | Some e => Raise e
  | None => Return v
  end.

(** [_calculate_confidence] (lines 380-407). *)
Definition _calculate_confidence
    (self : t) (semantic_similarity : Q) (analysis : Analysis)
    (answer_length : nat) : Q :=
  let confidence := semantic_similarity * 80 in
  let confidence :=
    if (answer_length <? 10)%nat then confidence * (7#10)
    else if (1000 <? answer_length)%nat then confidence * (9#10)
    else confidence in
  let keyword_coverage := default 0 (keyword_coverage analysis) in
  let confidence := confidence * (8#10) + keyword_coverage * 20 in
  let confidence :=
    if TRANSFORMERS_AVAILABLE && has_model self
    then Qmin confidence 95
    else Qmin confidence 85 in
  Qmax confidence 10.

(** [_evaluate_with_bert] (lines 134-181); [m] is [self.model]. *)
Definition _evaluate_with_bert
    (self : t) (m : Model)
    (question correct_answer user_answer : string) (max_marks : Z)
    (criteria : option (list string)) : result Evaluation :=
  semantic_similarity ← m correct_answer user_answer;
  analysis ← call AnalyzeAnswerComponents
    (_analyze_answer_components question correct_answer user_answer);
  score ← call CalculateFinalScore
    (_calculate_final_score semantic_similarity analysis criteria);
  feedback ← call GenerateFeedback
    (_generate_feedback score semantic_similarity analysis);
  confidence ← call CalculateConfidence
    (_calculate_confidence self semantic_similarity analysis
       (Py.len user_answer));
  mret {| score := score;
          confidence := confidence;
          feedback := feedback;
          semantic_similarity := semantic_similarity;
          detailed_analysis := analysis |}.

(** [evaluate] (lines 80-132). *)
Definition evaluate
    (self : t) (question correct_answer user_answer : string)
    (max_marks : Z) (criteria : option (list string))
  : result Evaluation :=
  if negb (_loaded self) then
    Raise (RuntimeError "Model not loaded. Call load_model() first.")
  else if negb (Py.truthy (Py.strip user_answer)) then
    Return empty_answer
  else
    try_except
      (match TRANSFORMERS_AVAILABLE, model self with
       | true, Some m =>
           _evaluate_with_bert self m
             question correct_answer user_answer max_marks criteria
       | _, _ =>
           call EvaluateFallback
             (_evaluate_fallback
                question correct_answer user_answer max_marks criteria)
       end)
      (λ e,
         call EvaluateFallback
           (_evaluate_fallback
              question correct_answer user_answer max_marks criteria)).

(** The loop of [batch_evaluate] (lines 417-425) on the list [results]
    built so far. *)
Fixpoint batch_loop (self : t) (evaluations : list EvalItem)
    (results : list Evaluation) : result (list Evaluation) :=
  match evaluations with
  | [] => Return results
  | eval_data :: evaluations' =>
      question ← getitem "question" (item_question eval_data);
      correct_answer ←
        getitem "correct_answer" (item_correct_answer eval_data);
      user_answer ← getitem "user_answer" (item_user_answer eval_data);
      r ← evaluate self question correct_answer user_answer
             (default 5%Z (item_max_marks eval_data))
             (item_criteria eval_data);
      batch_loop self evaluations' (results ++ [r])
  end.

(** [batch_evaluate] (lines 409-427). *)
Definition batch_evaluate (self : t) (evaluations : list EvalItem)
  : result (list Evaluation) :=
  batch_loop self evaluations [].

(** What [load_model] gets from the library: the outcome of
    constructing [SentenceTransformer(self.model_name, ...)] and of
    the test [encode] with the [shape] lookup (lines 50-55). *)
Variable SentenceTransformer : result Model.
Variable test_encode : Model → result unit.

(** The [try] block of [load_model] (lines 42-57): the state it
    leaves and how it ends. *)
Definition load_model_try (self : t) : t * result unit :=
  if negb TRANSFORMERS_AVAILABLE then
    ({| model := model self; _loaded := true |}, Return ())
  else
    match SentenceTransformer with
    | Raise e => (self, Raise e)
    | Return m =>
        let self := {| model := Some m; _loaded := _loaded self |} in
        match test_encode m with
        | Raise e => (self, Raise e)
        | Return _ =>
            ({| model := model self; _loaded := true |}, Return ())
        end
    end.

(** [load_model] (lines 39-62). *)
Definition load_model (self : t) : t :=
  match load_model_try self with
  | (self, Return _) => self
  | (self, Raise e) => {| model := model self; _loaded := true |}
  end.

(** [reload_model] (lines 74-78). *)
Definition reload_model (self : t) : t :=
  let self := {| model := model self; _loaded := false |} in
  let self := {| model := None; _loaded := _loaded self |} in
  load_model self.

End Engine.

(** The source as it is: no method raises. *)
Definition no_faults : Method → option exn := λ _, None.

End SemanticEvaluator.

(** ** [src/main.py]: start-up, dependencies and the two evaluation
    endpoints *)

Module Service.

Local Open Scope Q_scope.

(** [EvaluationRequest] (lines 74-79). *)
Record EvaluationRequest : Type := {
  question : string;
  correctAnswer : string;
  userAnswer : string;
  maxMarks : Z;
  evaluationCriteria : option (list string)
}.

(** [EvaluationResponse] (lines 81-88). *)
Record EvaluationResponse : Type := {
  score : Q;
  confidence : Q;
  feedback : string;
  keywordsMatched : list string;
  suggestions : list string;
  semanticSimilarity : Q;
  detailedAnalysis : SemanticEvaluator.Analysis
}.

(** The [score_distribution] dict of the batch summary (lines 262-267). *)
Record Distribution : Type := {
  excellent : nat;
  good : nat;
  fair : nat;
  poor : nat
}.

(** The [summary] dict (lines 258-268). *)
Record Summary : Type := {
  total_evaluations : nat;
  average_score : Q;
  average_confidence : Q;
  score_distribution : Distribution
}.

(** [BatchEvaluationResponse] (lines 93-95). *)
Record BatchEvaluationResponse : Type := {
  results : list EvaluationResponse;
  summary : Summary
}.

(** What an endpoint gives: its response model, or an [HTTPException]. *)
Inductive http (A : Type) : Type :=
  | OK (a : A)
  | HTTPException (status_code : nat) (detail : string).
Arguments OK {A} a.
Arguments HTTPException {A} status_code detail.

(** [str(e)] *)
Definition str_of_exn (e : exn) : string :=
  match e with
  | RuntimeError msg => msg
  | Exception msg => msg
  end.

(** [ge <= x <= le] of a [Field]. *)
Definition in_field (ge le x : Q) : bool := Qle_bool ge x && Qle_bool x le.

Section Endpoints.

(** The parameters [evaluator] and [processor] of the two coroutines:
    the objects that [Depends(get_evaluator)] and
    [Depends(get_text_processor)] hand over when they do not raise. They
    are taken as given here; [lifespan_startup] and [serve] below say
    what the application itself provides. *)
Variable TRANSFORMERS_AVAILABLE : bool.
Variable faults : SemanticEvaluator.Method → option exn.
Variable evaluator : SemanticEvaluator.t.
Variable processor : TextProcessor.t.

(** The text of the [ValidationError] that the response model raises for
    a score, a confidence and a similarity of which one is out of its
    [Field] bounds. *)
Variable validation_error : Q → Q → Q → string.

(** Building an [EvaluationResponse] (lines 182-190): the [Field] bounds
    of lines 82, 83 and 87 are checked. *)
Definition EvaluationResponse_new
    (score confidence : Q) (feedback : string)
    (keywordsMatched suggestions : list string)
    (semanticSimilarity : Q) (detailedAnalysis : SemanticEvaluator.Analysis)
  : result EvaluationResponse :=
  if in_field 0 1 score && in_field 0 100 confidence
     && in_field 0 1 semanticSimilarity
  then Return {| score := score;
                 confidence := confidence;
                 feedback := feedback;
                 keywordsMatched := keywordsMatched;
                 suggestions := suggestions;
                 semanticSimilarity := semanticSimilarity;
                 detailedAnalysis := detailedAnalysis |}
  else Raise (Exception
                (validation_error score confidence semanticSimilarity)).

(** The [try] block shared by the two endpoints (lines 155-190 and
    216-248): one request to the evaluation result and its response. *)
Definition respond (request : EvaluationRequest)
  : result (SemanticEvaluator.Evaluation * EvaluationResponse) :=
  let stop_words := TextProcessor.self_stop_words processor in
  let processed_question :=
    TextProcessor.preprocess stop_words (question request) false in
  let processed_correct :=
    TextProcessor.preprocess stop_words (correctAnswer request) false in
  let processed_user :=
    TextProcessor.preprocess stop_words (userAnswer request) false in
  r ← SemanticEvaluator.evaluate TRANSFORMERS_AVAILABLE faults evaluator
         processed_question processed_correct processed_user
         (maxMarks request) (evaluationCriteria request);
  let keywords_matched :=
    TextProcessor.extract_keywords stop_words
      (userAnswer request) (correctAnswer request) in
  let suggestions :=
    TextProcessor.generate_suggestions stop_words
      (userAnswer request) (correctAnswer request)
      (SemanticEvaluator.score r) in
  response ← EvaluationResponse_new
    (SemanticEvaluator.score r) (SemanticEvaluator.confidence r)
    (SemanticEvaluator.feedback r) keywords_matched suggestions
    (SemanticEvaluator.semantic_similarity r)
    (SemanticEvaluator.detailed_analysis r);
  mret (r, response).

(** The body of the coroutine [evaluate_answer] (lines 143-197). *)
Definition evaluate_answer (request : EvaluationRequest)
  : http EvaluationResponse :=
  match respond request with
  | Return (_, response) => OK response
  | Raise e =>
      HTTPException 500 ("Evaluation failed: " +:+ str_of_exn e)
  end.

(** The loop of [batch_evaluate_answers] (lines 215-252) on
    [(results, total_score, total_confidence)]. *)
Fixpoint batch_requests (evaluations : list EvaluationRequest)
    (acc : list EvaluationResponse * Q * Q)
  : result (list EvaluationResponse * Q * Q) :=
  match evaluations with
  | [] => Return acc
  | eval_request :: evaluations' =>
      let '(results, total_score, total_confidence) := acc in
      '(r, eval_response) ← respond eval_request;
      batch_requests evaluations'
        (results ++ [eval_response],
         total_score + SemanticEvaluator.score r,
         total_confidence + SemanticEvaluator.confidence r)
  end.

(** The summary statistics (lines 254-268). *)
Definition summarize (results : list EvaluationResponse)
    (total_score total_confidence : Q) : Summary :=
  let avg_score :=
    match results with
    | _ :: _ => total_score / Qnat (length results)
    | [] => 0
    end in
  let avg_confidence :=
    match results with
    | _ :: _ => total_confidence / Qnat (length results)
    | [] => 0
    end in
  {| total_evaluations := length results;
     average_score := avg_score;
     average_confidence := avg_confidence;
     score_distribution :=
       {| excellent :=
            length (List.filter (λ r, Qgeb (score r) (8#10)) results);
          good :=
            length (List.filter
                      (λ r, Qle_bool (6#10) (score r)
                            && Qltb (score r) (8#10)) results);
          fair :=
            length (List.filter
                      (λ r, Qle_bool (4#10) (score r)
                            && Qltb (score r) (6#10)) results);
          poor :=
            length (List.filter (λ r, Qltb (score r) (4#10)) results) |} |}.

(** The body of the coroutine [batch_evaluate_answers] (lines 199-279). *)
Definition batch_evaluate_answers (evaluations : list EvaluationRequest)
  : http BatchEvaluationResponse :=
  match batch_requests evaluations ([], 0, 0) with
  | Return (results, total_score, total_confidence) =>
      OK {| results := results;
            summary := summarize results total_score total_confidence |}
  | Raise e =>
      HTTPException 500 ("Batch evaluation failed: " +:+ str_of_exn e)
  end.

End Endpoints.

(** The two module-level names of lines 25-26. *)
Record Globals : Type := {
  semantic_evaluator : option SemanticEvaluator.t;
  text_processor : option TextProcessor.t
}.

(** Their values when the module has been imported. *)
Definition initial_globals : Globals :=
  {| semantic_evaluator := None; text_processor := None |}.

(** [get_evaluator] (lines 104-107). *)
Definition get_evaluator (globals : Globals) : http SemanticEvaluator.t :=
  match semantic_evaluator globals with
  | None => HTTPException 503 "Semantic evaluator not initialized"
  | Some evaluator => OK evaluator
  end.

(** [get_text_processor] (lines 110-113). *)
Definition get_text_processor (globals : Globals) : http TextProcessor.t :=
  match text_processor globals with
  | None => HTTPException 503 "Text processor not initialized"
  | Some processor => OK processor
  end.

Section Application.

(** What the two constructors and [load_model] depend on. *)
Variable TRANSFORMERS_AVAILABLE : bool.
Variable faults : SemanticEvaluator.Method → option exn.
Variable SentenceTransformer : result SemanticEvaluator.Model.
Variable test_encode : SemanticEvaluator.Model → result unit.
Variable nltk_download : result unit.
Variable new_PorterStemmer : result TextProcessor.PorterStemmer.
Variable stopwords_words : result (list string).
Variable unbound_local : string → string.
Variable validation_error : Q → Q → Q → string.

(** [lifespan] up to its [yield] (lines 29-49): the globals it leaves, and
    whether start-up completes or the exception is raised again. *)
Definition lifespan_startup (globals : Globals) : Globals * result unit :=
  match TextProcessor.__init__
          nltk_download new_PorterStemmer stopwords_words unbound_local with
  | Raise e => (globals, Raise e)
  | Return processor =>
      let globals := {| semantic_evaluator := semantic_evaluator globals;
                        text_processor := Some processor |} in
      let evaluator :=
        SemanticEvaluator.load_model TRANSFORMERS_AVAILABLE
          SentenceTransformer test_encode SemanticEvaluator.__init__ in
      ({| semantic_evaluator := Some evaluator;
          text_processor := text_processor globals |}, Return ())
  end.

(** A request to an endpoint with the two dependencies: each [Depends]
    is resolved, in the order of the parameters, before the coroutine
    runs, and its [HTTPException] is the answer. *)
Definition serve {A : Type} (globals : Globals)
    (endpoint : SemanticEvaluator.t → TextProcessor.t → http A) : http A :=
  match get_evaluator globals with
  | HTTPException status_code detail => HTTPException status_code detail
  | OK evaluator =>
      match get_text_processor globals with
      | HTTPException status_code detail => HTTPException status_code detail
      | OK processor => endpoint evaluator processor
      end
  end.

(** [POST /evaluate] (line 143). *)
Definition post_evaluate (globals : Globals) (request : EvaluationRequest)
  : http EvaluationResponse :=
  serve globals
    (λ evaluator processor,
       evaluate_answer TRANSFORMERS_AVAILABLE faults evaluator processor
         validation_error request).

(** [POST /batch-evaluate] (line 199). *)
Definition post_batch_evaluate (globals : Globals)
    (evaluations : list EvaluationRequest) : http BatchEvaluationResponse :=
  serve globals
    (λ evaluator processor,
       batch_evaluate_answers TRANSFORMERS_AVAILABLE faults evaluator
         processor validation_error evaluations).

End Application.

End Service.

(** ** The statements of the specification, in its own words *)

Module Spec.

Import SemanticEvaluator.
Local Open Scope Q_scope.

(** A candidate answer that is blank or only white space. *)
Definition blank (text : string) : bool := Py.all Py.isspace text.

(** The stop words of the fallback path (line 198). *)
Definition fallback_path_stop_words : gset string :=
  list_to_set
    ["the"; "a"; "an"; "and"; "or"; "but"; "in"; "on"; "at"; "to"; "for";
     "of"; "with"; "by"; "is"; "are"; "was"; "were"].

(** "lowercased whitespace-split token sets with stop words removed but
    no short-token filtering" *)
Definition tokenSet (text : string) : gset string :=
  list_to_set
    (List.filter (λ w, negb (Py.mem w fallback_path_stop_words))
       (Py.split (Py.lower text))).

(** "|intersection|/|reference set| ... and equals 0 when the reference
    set is empty" *)
Definition wordOverlapRatio (reference candidate : string) : Q :=
  let r := tokenSet reference in
  let c := tokenSet candidate in
  match size r with
  | O => 0
  | S _ => Qnat (size (r ∩ c)) / Qnat (size r)
  end.

(** "0.7*wordOverlapRatio + 0.3*min(len(b)/max(len(a),1), 1)" *)
Definition fallbackSimilarity (reference candidate : string) : Q :=
  (7#10) * wordOverlapRatio reference candidate
  + (3#10) * Qmin (Qnat (Py.len candidate)
                   / Qnat (Nat.max (Py.len reference) 1)) 1.

(** "clamp to [0,1]" *)
Definition clamp01 (x : Q) : Q := Qmax 0 (Qmin x 1).

(** The weighted pipeline of the score composer, steps 1 to 6. *)
Definition finalScore
    (semanticSimilarity keywordCoverage lengthRatio coherence : Q) : Q :=
  let base := semanticSimilarity in
  let base := base * (7#10) + keywordCoverage * (3#10) in
  let base :=
    if Qltb lengthRatio (3#10) then base * (8#10)
    else if Qltb 3 lengthRatio then base * (9#10)
    else base in
  let base := base * (9#10) + coherence * (1#10) in
  clamp01 base.

(** The band sentences of the two paths. *)
Definition excellent_model : string :=
  "Excellent answer! You demonstrate a thorough understanding of the concept.".
Definition good_model : string :=
  "Good answer! You show a solid grasp of the main ideas.".
Definition needs_improvement_model : string :=
  "Your answer needs improvement. Please review the topic more carefully.".
Definition excellent_fallback : string :=
  "Excellent answer! Shows comprehensive understanding.".
Definition needs_improvement_fallback : string :=
  "Answer needs significant improvement. Please review the topic.".

(** [feedback] starts with an "excellent"-band sentence. *)
Definition starts_excellent (feedback : string) : bool :=
  String.prefix excellent_model feedback
  || String.prefix excellent_fallback feedback.

(** [feedback] starts with a "needs improvement"-band sentence. *)
Definition starts_needs_improvement (feedback : string) : bool :=
  String.prefix needs_improvement_model feedback
  || String.prefix needs_improvement_fallback feedback.

(** The message of the [RuntimeError] of line 102. *)
Definition not_loaded : exn :=
  RuntimeError "Model not loaded. Call load_model() first.".

Section Paths.

Variable TRANSFORMERS_AVAILABLE : bool.
Variable self : t.
Variables correct_answer user_answer : string.

(** The model path runs and the embedding call gives the cosine
    similarity [c]. *)
Definition model_answers (c : Q) : Prop :=
  TRANSFORMERS_AVAILABLE = true
  ∧ ∃ m, model self = Some m ∧ m correct_answer user_answer = Return c.

(** The fallback path is used: there is no usable model, or the
    embedding call raises. *)
Definition falls_back : Prop :=
  TRANSFORMERS_AVAILABLE = false
  ∨ model self = None
  ∨ ∃ m e, model self = Some m
           ∧ m correct_answer user_answer = Raise e.

End Paths.

End Spec.

(** ** Concrete evaluators and inputs used below *)

Module Cases.

Import SemanticEvaluator.
Local Open Scope Q_scope.

(** An embedding model whose cosine similarity is always [c]. *)
Definition constant_model (c : Q) : Model := λ _ _, Return c.

(** An embedding model whose [encode] raises. *)
Definition failing_model : Model :=
  λ _ _, Raise (Exception "CUDA out of memory").

Definition with_model (m : Model) : t :=
  {| model := Some m; _loaded := true |}.

Definition without_model : t := {| model := None; _loaded := true |}.

(** A defect in [_analyze_answer_components] only. *)
Definition analysis_defect (m : Method) : option exn :=
  match m with
  | AnalyzeAnswerComponents => Some (Exception "KeyError")
  | _ => None
  end.

(** Every method raises. *)
Definition all_defect (m : Method) : option exn := Some (Exception "defect").

(** A request to the evaluation endpoint. *)
Definition sample_request : Service.EvaluationRequest :=
  {| Service.question := "What does photosynthesis do?";
     Service.correctAnswer :=
       "Photosynthesis converts light energy into chemical energy.";
     Service.userAnswer := "Plants convert light into chemical energy!";
     Service.maxMarks := 5;
     Service.evaluationCriteria := None |}.

(** A request whose answer has no word in it. *)
Definition symbols_request : Service.EvaluationRequest :=
  {| Service.question := "What does photosynthesis do?";
     Service.correctAnswer :=
       "Photosynthesis converts light energy into chemical energy.";
     Service.userAnswer := "?!... ### ---";
     Service.maxMarks := 5;
     Service.evaluationCriteria := None |}.

(** A text processor as a class with a working constructor would build
    it without NLTK: no stemmer, the stop words of lines 55-62. *)
Definition sample_processor : TextProcessor.t :=
  {| TextProcessor.self_stemmer := None;
     TextProcessor.self_stop_words := TextProcessor.fallback_stop_words |}.

(** A text for the [ValidationError] of the response model. *)
Definition plain_validation_error : Q → Q → Q → string :=
  λ _ _ _, "1 validation error for EvaluationResponse".

(** An entry of a batch with its three texts and nothing else. *)
Definition sample_item : EvalItem :=
  {| item_question := Some "What does photosynthesis do?";
     item_correct_answer :=
       Some "Photosynthesis converts light energy into chemical energy";
     item_user_answer := Some "Plants convert light into chemical energy";
     item_max_marks := None;
     item_criteria := None |}.

End Cases.

(** * Properties *)

Import SemanticEvaluator.

(** ** The string primitives on examples *)

Example split_ex :
  Py.split "  the quick brown   fox " = ["the"; "quick"; "brown"; "fox"].
Proof. reflexivity. Qed.

Example split_on_ex : Py.split_on "." "a.b." = ["a"; "b"; ""].
Proof. reflexivity. Qed.

Example strip_ex : Py.strip "  a b  " = "a b".
Proof. reflexivity. Qed.

Example lower_ex : Py.lower "Hello World" = "hello world".
Proof. reflexivity. Qed.

Example str_of_nat_ex : Py.str_of_nat 0 = "0" ∧ Py.str_of_nat 120 = "120".
Proof. split; reflexivity. Qed.

Example preprocess_ex :
  TextProcessor.preprocess TextProcessor.fallback_stop_words
    "The  Quick, brown-fox!! jumps (over) the lazy dog." true
  = "quick brown fox jumps over lazy dog".
Proof. vm_compute. reflexivity. Qed.

(** ** Blank strings and [strip] *)

Section Strip.

Lemma rev_app_all p s acc :
  Py.all p (String.rev_app s acc) = Py.all p s && Py.all p acc.
Proof.
  revert acc. induction s as [|c s IH]; intros acc; simpl; [done|].
  rewrite IH. simpl. by destruct (p c), (Py.all p s), (Py.all p acc).
Qed.

Lemma rev_all p s : Py.all p (String.rev s) = Py.all p s.
Proof. unfold String.rev. rewrite rev_app_all. simpl. apply andb_true_r. Qed.

Lemma rev_app_empty s acc : String.rev_app s acc = "" → s = "" ∧ acc = "".
Proof.
  revert acc. induction s as [|c s IH]; intros acc; simpl; [done|].
  intros H. apply IH in H as [_ H]. discriminate.
Qed.

Lemma rev_empty s : String.rev s = "" → s = "".
Proof. intros H. by apply rev_app_empty in H as [? _]. Qed.

Lemma lstrip_blank s : Py.all Py.isspace s = true → Py.lstrip s = "".
Proof.
  induction s as [|c s IH]; simpl; [done|].
  intros [Hc Hs]%andb_true_iff. rewrite Hc. auto.
Qed.

Lemma lstrip_empty s : Py.lstrip s = "" → Py.all Py.isspace s = true.
Proof.
  induction s as [|c s IH]; simpl; [done|].
  destruct (Py.isspace c); [auto | discriminate].
Qed.

Lemma lstrip_all_blank s :
  Py.all Py.isspace (Py.lstrip s) = true → Py.all Py.isspace s = true.
Proof.
  induction s as [|c s IH]; simpl; [done|].
  destruct (Py.isspace c) eqn:Hc; simpl; [auto | by rewrite Hc].
Qed.

(** [strip] leaves nothing exactly of the blank strings. *)
Lemma strip_empty_iff s : Py.strip s = "" ↔ Spec.blank s = true.
Proof.
  unfold Py.strip, Py.rstrip, Spec.blank. split.
  - intros H%rev_empty%lstrip_empty. rewrite rev_all in H.
    by apply lstrip_all_blank.
  - intros H. by rewrite (lstrip_blank s H).
Qed.

Lemma truthy_strip s : Py.truthy (Py.strip s) = negb (Spec.blank s).
Proof.
  destruct (Spec.blank s) eqn:Hb.
  - apply strip_empty_iff in Hb. by rewrite Hb.
  - destruct (Py.strip s) eqn:Hs; [|done].
    apply strip_empty_iff in Hs. congruence.
Qed.

End Strip.

(** ** The control flow of [evaluate] *)

Section Control.

Variable TRANSFORMERS_AVAILABLE : bool.
Variable faults : Method → option exn.
Variable self : t.
Variables question correct_answer user_answer : string.
Variable max_marks : Z.
Variable criteria : option (list string).

Local Abbreviation evaluate_here :=
  (evaluate TRANSFORMERS_AVAILABLE faults self
     question correct_answer user_answer max_marks criteria).
Local Abbreviation fallback_here :=
  (call faults EvaluateFallback
     (_evaluate_fallback
        question correct_answer user_answer max_marks criteria)).

Hypothesis loaded : _loaded self = true.
Hypothesis answered : Spec.blank user_answer = false.

(** With a model, [evaluate] is the model path wrapped in the handler. *)
Lemma evaluate_with_model m :
  TRANSFORMERS_AVAILABLE = true → model self = Some m →
  evaluate_here
  = try_except
      (_evaluate_with_bert TRANSFORMERS_AVAILABLE faults self m
         question correct_answer user_answer max_marks criteria)
      (λ _, fallback_here).
Proof.
  intros HT Hm. unfold evaluate.
  rewrite loaded, truthy_strip, answered, HT, Hm. reflexivity.
Qed.

(** Without one, it is the fallback evaluation, tried twice when it
    raises. *)
Lemma evaluate_without_model :
  TRANSFORMERS_AVAILABLE = false ∨ model self = None →
  evaluate_here = fallback_here.
Proof.
  intros H. unfold evaluate. rewrite loaded, truthy_strip, answered. simpl.
  assert (match TRANSFORMERS_AVAILABLE, model self with
          | true, Some m =>
              _evaluate_with_bert TRANSFORMERS_AVAILABLE faults self m
                question correct_answer user_answer max_marks criteria
          | _, _ => fallback_here
          end = fallback_here) as ->.
  { destruct H as [-> | ->]; [done|]. by destruct TRANSFORMERS_AVAILABLE. }
  unfold try_except, call. by destruct (faults EvaluateFallback).
Qed.

(** An exception of the model path never leaves [evaluate]. *)
Lemma evaluate_model_raises m e :
  TRANSFORMERS_AVAILABLE = true → model self = Some m →
  _evaluate_with_bert TRANSFORMERS_AVAILABLE faults self m
    question correct_answer user_answer max_marks criteria = Raise e →
  evaluate_here = fallback_here.
Proof.
  intros HT Hm He. rewrite (evaluate_with_model m HT Hm), He. reflexivity.
Qed.

Lemma evaluate_model_returns m r :
  TRANSFORMERS_AVAILABLE = true → model self = Some m →
  _evaluate_with_bert TRANSFORMERS_AVAILABLE faults self m
    question correct_answer user_answer max_marks criteria = Return r →
  evaluate_here = Return r.
Proof.
  intros HT Hm He. rewrite (evaluate_with_model m HT Hm), He. reflexivity.
Qed.

(** Whatever escapes [evaluate] was raised by [_evaluate_fallback]. *)
Lemma evaluate_raise_origin e :
  evaluate_here = Raise e → faults EvaluateFallback = Some e.
Proof.
  assert (fallback_here = Raise e → faults EvaluateFallback = Some e) as Hfb.
  { unfold call. destruct (faults EvaluateFallback); naive_solver. }
  destruct (model self) as [m|] eqn:Hm;
    [destruct (decide (TRANSFORMERS_AVAILABLE = true)) as [HT|HT]|].
  - rewrite (evaluate_with_model m HT Hm).
    destruct (_evaluate_with_bert _ _ _ _ _ _ _ _ _); simpl; [done|auto].
  - apply not_true_is_false in HT. rewrite evaluate_without_model; auto.
  - rewrite evaluate_without_model; auto.
Qed.

End Control.

(** ** Empty answers, loading, and exception containment *)

Section Containment.

Local Open Scope Q_scope.

(** C1. On a loaded evaluator a candidate answer that is blank or only
    white space gets exactly score 0, confidence 100, semantic
    similarity 0 and the feedback "No answer provided.". Nothing else
    runs: the result is the same whatever the model would do and
    whichever methods would raise. *)
Theorem C1_blank_answer_fixed_result
    (TRANSFORMERS_AVAILABLE : bool) (faults : Method → option exn)
    (self : t) (question correct_answer user_answer : string)
    (max_marks : Z) (criteria : option (list string)) :
  _loaded self = true →
  Spec.blank user_answer = true →
  ∃ r, evaluate TRANSFORMERS_AVAILABLE faults self
         question correct_answer user_answer max_marks criteria = Return r
       ∧ score r = 0
       ∧ confidence r = 100
       ∧ semantic_similarity r = 0
       ∧ feedback r = "No answer provided.".
Proof.
  intros Hl Hb. exists empty_answer. unfold evaluate.
  rewrite Hl, truthy_strip, Hb. simpl. done.
Qed.

Lemma C1_blank_answer_witness :
  ∃ r, evaluate true Cases.all_defect (Cases.with_model Cases.failing_model)
         "What is osmosis?" "Movement of water across a membrane" "    "
         5 None = Return r
       ∧ score r = 0
       ∧ confidence r = 100
       ∧ semantic_similarity r = 0
       ∧ feedback r = "No answer provided.".
Proof.
  apply (C1_blank_answer_fixed_result true Cases.all_defect
           (Cases.with_model Cases.failing_model)); reflexivity.
Defined.

(** C5. When the model path raises, whatever the exception and
    whichever of its steps raised it, [evaluate] does not raise: it
    runs [_evaluate_fallback] on the same arguments and returns its
    result. *)
Theorem C5_model_error_falls_back
    (TRANSFORMERS_AVAILABLE : bool) (faults : Method → option exn)
    (self : t) (m : Model) (question correct_answer user_answer : string)
    (max_marks : Z) (criteria : option (list string)) (e : exn) :
  _loaded self = true →
  Spec.blank user_answer = false →
  TRANSFORMERS_AVAILABLE = true →
  model self = Some m →
  _evaluate_with_bert TRANSFORMERS_AVAILABLE faults self m
    question correct_answer user_answer max_marks criteria = Raise e →
  faults EvaluateFallback = None →
  evaluate TRANSFORMERS_AVAILABLE faults self
    question correct_answer user_answer max_marks criteria
  = Return (_evaluate_fallback
              question correct_answer user_answer max_marks criteria).
Proof.
  intros Hl Hb HT Hm He Hf.
  rewrite (evaluate_model_raises _ _ _ _ _ _ _ _ Hl Hb m e HT Hm He).
  unfold call. by rewrite Hf.
Qed.

Lemma C5_model_error_witness :
  evaluate true no_faults (Cases.with_model Cases.failing_model)
    "What is osmosis?" "Movement of water across a membrane"
    "Water moves across a membrane" 5 None
  = Return (_evaluate_fallback
              "What is osmosis?" "Movement of water across a membrane"
              "Water moves across a membrane" 5 None).
Proof.
  apply (C5_model_error_falls_back true no_faults
           (Cases.with_model Cases.failing_model) Cases.failing_model
           _ _ _ _ _ (Exception "CUDA out of memory")); reflexivity.
Defined.

(** C6, as the specification states it, fails: [_analyze_answer_components]
    raises inside the model path, after an embedding call that
    succeeded, and [evaluate] returns the fallback result instead of
    raising. *)
Lemma C6_stage_error_swallowed :
  Cases.analysis_defect AnalyzeAnswerComponents = Some (Exception "KeyError")
  ∧ Cases.constant_model (4#5) "Movement of water across a membrane"
      "Water moves across a membrane" = Return (4#5)
  ∧ evaluate true Cases.analysis_defect
      (Cases.with_model (Cases.constant_model (4#5)))
      "What is osmosis?" "Movement of water across a membrane"
      "Water moves across a membrane" 5 None
    ≠ Raise (Exception "KeyError")
  ∧ evaluate true Cases.analysis_defect
      (Cases.with_model (Cases.constant_model (4#5)))
      "What is osmosis?" "Movement of water across a membrane"
      "Water moves across a membrane" 5 None
    = Return (_evaluate_fallback
                "What is osmosis?" "Movement of water across a membrane"
                "Water moves across a membrane" 5 None).
Proof.
  split; [reflexivity|]. split; [reflexivity|]. split.
  - vm_compute. discriminate.
  - vm_compute. reflexivity.
Qed.

(** C6, amended. An exception raised by a method of the model path
    (analysis, score, feedback or confidence) after a successful
    embedding call is caught by [evaluate], which then runs
    [_evaluate_fallback]: it returns the fallback result when that
    call returns, and the only exception that reaches the caller is
    one raised by [_evaluate_fallback] itself. *)
Theorem C6_stage_error_demoted
    (TRANSFORMERS_AVAILABLE : bool) (faults : Method → option exn)
    (self : t) (m : Model) (question correct_answer user_answer : string)
    (max_marks : Z) (criteria : option (list string))
    (c : Q) (stage : Method) (e : exn) :
  _loaded self = true →
  Spec.blank user_answer = false →
  TRANSFORMERS_AVAILABLE = true →
  model self = Some m →
  m correct_answer user_answer = Return c →
  stage ≠ EvaluateFallback →
  faults stage = Some e →
  (faults EvaluateFallback = None →
     evaluate TRANSFORMERS_AVAILABLE faults self
       question correct_answer user_answer max_marks criteria
     = Return (_evaluate_fallback
                 question correct_answer user_answer max_marks criteria))
  ∧ (∀ e', faults EvaluateFallback = Some e' →
       evaluate TRANSFORMERS_AVAILABLE faults self
         question correct_answer user_answer max_marks criteria
       = Raise e').
Proof.
  intros Hl Hb HT Hm Hc Hs He.
  assert (∃ e0, _evaluate_with_bert TRANSFORMERS_AVAILABLE faults self m
                  question correct_answer user_answer max_marks criteria
                = Raise e0) as [e0 He0].
  { unfold _evaluate_with_bert, call, mbind, result_bind, mret, result_ret.
    rewrite Hc.
    destruct (faults AnalyzeAnswerComponents) eqn:H1; [eauto|].
    destruct (faults CalculateFinalScore) eqn:H2; [eauto|].
    destruct (faults GenerateFeedback) eqn:H3; [eauto|].
    destruct (faults CalculateConfidence) eqn:H4; [eauto|].
    destruct stage; congruence. }
  rewrite (evaluate_model_raises _ _ _ _ _ _ _ _ Hl Hb m e0 HT Hm He0).
  unfold call. split; [intros -> | intros e' ->]; reflexivity.
Qed.

Lemma C6_stage_error_witness :
  (Cases.analysis_defect EvaluateFallback = None →
     evaluate true Cases.analysis_defect
       (Cases.with_model (Cases.constant_model (4#5)))
       "What is osmosis?" "Movement of water across a membrane"
       "Water moves across a membrane" 5 None
     = Return (_evaluate_fallback
                 "What is osmosis?" "Movement of water across a membrane"
                 "Water moves across a membrane" 5 None))
  ∧ (∀ e', Cases.analysis_defect EvaluateFallback = Some e' →
       evaluate true Cases.analysis_defect
         (Cases.with_model (Cases.constant_model (4#5)))
         "What is osmosis?" "Movement of water across a membrane"
         "Water moves across a membrane" 5 None
       = Raise e').
Proof.
  apply (C6_stage_error_demoted true Cases.analysis_defect
           (Cases.with_model (Cases.constant_model (4#5)))
           (Cases.constant_model (4#5)) _ _ _ _ _ (4#5)
           AnalyzeAnswerComponents (Exception "KeyError"));
    (reflexivity || discriminate).
Defined.

(** C10. While [_loaded] is false every call of [evaluate], a blank
    answer included, raises the [RuntimeError] and returns nothing.
    [load_model] sets [_loaded] in each of its outcomes (library
    missing, model built, constructor or test encoding raising), and
    on the evaluator it leaves [evaluate] never raises that error of
    its own: an exception reaches the caller only if
    [_evaluate_fallback] raised it, and with the methods of the source
    [evaluate] returns a result. *)
Theorem C10_not_loaded_raises_loaded_never
    (TRANSFORMERS_AVAILABLE : bool) (faults : Method → option exn)
    (SentenceTransformer : result Model) (test_encode : Model → result unit)
    (self : t) (question correct_answer user_answer : string)
    (max_marks : Z) (criteria : option (list string)) :
  (_loaded self = false →
     evaluate TRANSFORMERS_AVAILABLE faults self
       question correct_answer user_answer max_marks criteria
     = Raise Spec.not_loaded)
  ∧ _loaded (load_model TRANSFORMERS_AVAILABLE
               SentenceTransformer test_encode self) = true
  ∧ (∀ e,
       evaluate TRANSFORMERS_AVAILABLE faults
         (load_model TRANSFORMERS_AVAILABLE
            SentenceTransformer test_encode self)
         question correct_answer user_answer max_marks criteria = Raise e →
       faults EvaluateFallback = Some e)
  ∧ (∃ r,
       evaluate TRANSFORMERS_AVAILABLE no_faults
         (load_model TRANSFORMERS_AVAILABLE
            SentenceTransformer test_encode self)
         question correct_answer user_answer max_marks criteria = Return r).
Proof.
  assert (_loaded (load_model TRANSFORMERS_AVAILABLE
                     SentenceTransformer test_encode self) = true) as Hl.
  { unfold load_model, load_model_try.
    destruct TRANSFORMERS_AVAILABLE; simpl; [|done].
    destruct SentenceTransformer as [m|]; [|done].
    by destruct (test_encode m). }
  assert (∀ f e,
            evaluate TRANSFORMERS_AVAILABLE f
              (load_model TRANSFORMERS_AVAILABLE
                 SentenceTransformer test_encode self)
              question correct_answer user_answer max_marks criteria
            = Raise e →
            f EvaluateFallback = Some e) as Hraise.
  { intros f e. destruct (Spec.blank user_answer) eqn:Hb.
    - unfold evaluate. rewrite Hl, truthy_strip, Hb. discriminate.
    - by apply evaluate_raise_origin. }
  split; [|split; [exact Hl | split; [apply Hraise|]]].
  - intros H. unfold evaluate. by rewrite H.
  - destruct (evaluate TRANSFORMERS_AVAILABLE no_faults _ _ _ _ _ _)
      as [r|e] eqn:He; [by exists r|].
    apply Hraise in He. discriminate.
Qed.

Lemma C10_not_loaded_witness :
  evaluate true no_faults __init__
    "What is osmosis?" "Movement of water across a membrane" "" 5 None
  = Raise Spec.not_loaded.
Proof.
  apply (C10_not_loaded_raises_loaded_never true no_faults
           (Raise (Exception "OSError")) (λ _, Return ()) __init__).
  reflexivity.
Defined.

End Containment.

(** ** Arithmetic on lengths and ratios *)

Section Numbers.

Local Open Scope Q_scope.

Lemma Qltb_lt x y : Qltb x y = true ↔ x < y.
Proof.
  unfold Qltb. rewrite negb_true_iff, <- not_true_iff_false, Qle_bool_iff.
  split; [apply Qnot_le_lt | apply Qlt_not_le].
Qed.

Lemma Qltb_ge x y : Qltb x y = false ↔ y <= x.
Proof. unfold Qltb. by rewrite negb_false_iff, Qle_bool_iff. Qed.

Lemma Qgeb_ge x y : Qgeb x y = true ↔ y <= x.
Proof. apply Qle_bool_iff. Qed.

Lemma Qgeb_lt x y : Qgeb x y = false ↔ x < y.
Proof.
  unfold Qgeb. rewrite <- not_true_iff_false, Qle_bool_iff.
  split; [apply Qnot_le_lt | apply Qlt_not_le].
Qed.

Lemma Qnat_nonneg n : 0 <= Qnat n.
Proof. unfold Qnat. rewrite <- (Zle_Qle 0). lia. Qed.

Lemma Qnat_pos n : (0 < n)%nat → 0 < Qnat n.
Proof. intros H. unfold Qnat. rewrite <- (Zlt_Qlt 0). lia. Qed.

Lemma Qnat_le n m : (n ≤ m)%nat → Qnat n <= Qnat m.
Proof. intros H. unfold Qnat. rewrite <- Zle_Qle. lia. Qed.

(** A quotient of two lengths is never negative. *)
Lemma ratio_nonneg n m : (0 < m)%nat → 0 <= Qnat n / Qnat m.
Proof.
  intros Hm. apply Qle_shift_div_l; [by apply Qnat_pos|].
  pose proof (Qnat_nonneg n). lra.
Qed.

(** A part over the whole is at most one. *)
Lemma ratio_le_1 n m : (0 < m)%nat → (n ≤ m)%nat → Qnat n / Qnat m <= 1.
Proof.
  intros Hm Hnm. apply Qle_shift_div_r; [by apply Qnat_pos|].
  pose proof (Qnat_le n m Hnm). lra.
Qed.

Lemma Qmin_bounds x : 0 <= x → 0 <= Qmin x 1 <= 1.
Proof.
  intros Hx. split; [apply Q.min_glb; lra | apply Q.le_min_r].
Qed.

Lemma clamp01_of_nonneg x : 0 <= x → Spec.clamp01 x == Qmin x 1.
Proof.
  intros Hx. unfold Spec.clamp01. apply Q.max_r. by apply Qmin_bounds.
Qed.

End Numbers.

(** ** The token sets of the fallback path *)

Section Tokens.

(** Taking the stop words out of the set, as the source does, or out of
    the word list first, as the specification says, is the same. *)
Lemma difference_as_filter (l : list string) (stop : gset string) :
  list_to_set l ∖ stop
  = (list_to_set
       (List.filter (λ w, negb (Py.mem w stop)) l) : gset string).
Proof.
  apply set_eq. intros x.
  rewrite elem_of_difference, !elem_of_list_to_set, !list_elem_of_In.
  rewrite filter_In. unfold Py.mem.
  rewrite negb_true_iff, bool_decide_eq_false. reflexivity.
Qed.

Lemma intersection_size_le (X Y : gset string) :
  (size (X ∩ Y) ≤ size X)%nat.
Proof. apply subseteq_size, intersection_subseteq_l. Qed.

End Tokens.

(** ** What the fallback path computes *)

Section FallbackFacts.

Local Open Scope Q_scope.

Variables question correct_answer user_answer : string.
Variable max_marks : Z.
Variable criteria : option (list string).

Local Abbreviation fb :=
  (_evaluate_fallback question correct_answer user_answer max_marks criteria).

Lemma fallback_similarity_spec :
  semantic_similarity fb == Spec.fallbackSimilarity correct_answer user_answer.
Proof.
  unfold _evaluate_fallback, Spec.fallbackSimilarity, Spec.wordOverlapRatio,
    Spec.tokenSet, Spec.fallback_path_stop_words.
  cbv zeta. cbn [semantic_similarity].
  rewrite !difference_as_filter.
  destruct (size _) eqn:Hsz; simpl Nat.eqb; cbv iota; ring.
Qed.

Lemma word_overlap_bounds (X Y : gset string) :
  0 <= (if (size X =? 0)%nat then 0 else Qnat (size (X ∩ Y)) / Qnat (size X))
    <= 1.
Proof.
  destruct (size X =? 0)%nat eqn:Hz; [lra|].
  apply Nat.eqb_neq in Hz.
  split; [apply ratio_nonneg; lia|].
  apply ratio_le_1; [lia | apply intersection_size_le].
Qed.

Lemma fallback_similarity_bounds : 0 <= semantic_similarity fb <= 1.
Proof.
  unfold _evaluate_fallback. cbv zeta. cbn [semantic_similarity].
  match goal with
  | |- _ <= ?wo * _ + ?lr * _ <= _ =>
      assert (0 <= wo <= 1) as Hwo by apply word_overlap_bounds;
      assert (0 <= lr <= 1) as Hlr
  end.
  { apply Qmin_bounds, ratio_nonneg. lia. }
  lra.
Qed.

Lemma fallback_score_eq : score fb = Qmin (semantic_similarity fb) 1.
Proof. reflexivity. Qed.

Lemma fallback_confidence_eq : confidence fb = Qmin (score fb * 80) 85.
Proof. reflexivity. Qed.

Lemma fallback_score_bounds : 0 <= score fb <= 1.
Proof.
  rewrite fallback_score_eq. apply Qmin_bounds, fallback_similarity_bounds.
Qed.

Lemma fallback_confidence_bounds : 0 <= confidence fb <= 80.
Proof.
  rewrite fallback_confidence_eq. pose proof fallback_score_bounds as [H0 H1].
  split.
  - apply Q.min_glb; lra.
  - apply Qle_trans with (score fb * 80); [apply Q.le_min_l | lra].
Qed.

Lemma fallback_feedback_excellent :
  8#10 <= score fb → feedback fb = Spec.excellent_fallback.
Proof.
  intros H. apply Qgeb_ge in H. unfold _evaluate_fallback in *. cbv zeta in *.
  cbn [feedback score] in *. by rewrite H.
Qed.

Lemma fallback_feedback_needs_improvement :
  score fb < 4#10 → feedback fb = Spec.needs_improvement_fallback.
Proof.
  intros H. assert (Hs := H). apply Qgeb_lt in H.
  assert (Qgeb (score fb) (6#10) = false) as H6 by (apply Qgeb_lt; lra).
  assert (Qgeb (score fb) (8#10) = false) as H8 by (apply Qgeb_lt; lra).
  unfold _evaluate_fallback in *. cbv zeta in *.
  cbn [feedback score] in *. by rewrite H8, H6, H.
Qed.

End FallbackFacts.

(** ** What the model path computes *)

Section ModelFacts.

Local Open Scope Q_scope.

Variables question correct_answer user_answer : string.

Local Abbreviation an :=
  (_analyze_answer_components question correct_answer user_answer).

Lemma analysis_keyword_coverage_bounds :
  0 <= default 0 (keyword_coverage an) <= 1.
Proof.
  unfold _analyze_answer_components. cbv zeta.
  cbn [keyword_coverage from_option id].
  destruct (0 <? size _)%nat eqn:Hz; [|lra].
  apply Nat.ltb_lt in Hz.
  split; [by apply ratio_nonneg|].
  apply ratio_le_1; [done | apply intersection_size_le].
Qed.

Lemma analysis_coherence_bounds :
  0 <= default 1 (semantic_coherence an) <= 1.
Proof.
  unfold _analyze_answer_components. cbv zeta.
  cbn [semantic_coherence from_option id].
  apply Qmin_bounds, ratio_nonneg. lia.
Qed.

(** The score never exceeds one; it is non-negative when the
    similarity it starts from is. *)
Lemma final_score_le_1 c a criteria : _calculate_final_score c a criteria <= 1.
Proof. unfold _calculate_final_score. cbv zeta. apply Q.le_min_r. Qed.

Lemma final_score_nonneg c criteria :
  0 <= c → 0 <= _calculate_final_score c an criteria.
Proof.
  intros Hc. unfold _calculate_final_score. cbv zeta.
  pose proof analysis_keyword_coverage_bounds as [Hk _].
  pose proof analysis_coherence_bounds as [Hh _].
  apply Q.min_glb; [|lra].
  destruct (Qltb _ (3#10)); [|destruct (Qltb 3 _)]; nra.
Qed.

(** With a non-negative similarity the upper clamp of the source is
    the clamp to [0,1] of the specification. *)
Lemma final_score_spec c criteria :
  0 <= c →
  _calculate_final_score c an criteria
  == Spec.finalScore c
       (default 0 (keyword_coverage an))
       (default 1 (length_ratio an))
       (default 1 (semantic_coherence an)).
Proof.
  intros Hc. pose proof (final_score_nonneg c criteria Hc) as Hn.
  unfold _calculate_final_score, Spec.finalScore in *. cbv zeta in *.
  symmetry. unfold Spec.clamp01. by apply Q.max_r.
Qed.

Lemma confidence_bounds_with_model self c a n :
  has_model self = true →
  10 <= _calculate_confidence true self c a n <= 95.
Proof.
  intros Hm. unfold _calculate_confidence. cbv zeta. rewrite Hm. simpl andb.
  cbv iota. split; [apply Q.le_max_r|].
  apply Q.max_lub; [apply Q.le_min_r | lra].
Qed.

Lemma prefix_app s t : String.prefix s (s +:+ t) = true.
Proof.
  induction s as [|c s IH]; [by destruct t|].
  simpl. by destruct (Ascii.ascii_dec c c).
Qed.

Lemma prefix_refl s : String.prefix s s = true.
Proof.
  induction s as [|c s IH]; [done|].
  simpl. by destruct (Ascii.ascii_dec c c).
Qed.

Lemma prefix_join_head sep p rest :
  String.prefix p (Py.join sep (p :: rest)) = true.
Proof.
  destruct rest; simpl; [apply prefix_refl | apply prefix_app].
Qed.

(** The feedback of the model path opens with the band sentence of
    the thresholds 0.9, 0.7 and 0.5. *)
Lemma generate_feedback_head s c a :
  ∃ rest,
    _generate_feedback s c a
    = Py.join " "
        ((if Qgeb s (9#10) then Spec.excellent_model
          else if Qgeb s (7#10) then Spec.good_model
          else if Qgeb s (5#10) then
            "Fair answer. You understand some key concepts but could improve."
          else Spec.needs_improvement_model) :: rest).
Proof.
  unfold _generate_feedback. cbv zeta.
  destruct (Qgeb s (9#10)); [|destruct (Qgeb s (7#10));
                               [|destruct (Qgeb s (5#10))]];
    destruct (Qltb (default 0 (keyword_coverage a)) (5#10));
    destruct (default [] (keywords_missing a));
    destruct (Qltb (default 1 (length_ratio a)) (3#10));
    destruct (Qltb (25#10) (default 1 (length_ratio a)));
    destruct (Qltb c (4#10));
    simpl app; eexists; reflexivity.
Qed.

Lemma generate_feedback_excellent s c a :
  9#10 <= s →
  String.prefix Spec.excellent_model (_generate_feedback s c a) = true.
Proof.
  intros H. apply Qgeb_ge in H.
  destruct (generate_feedback_head s c a) as [rest ->].
  rewrite H. apply prefix_join_head.
Qed.

Lemma generate_feedback_good s c a :
  7#10 <= s → s < 9#10 →
  String.prefix Spec.good_model (_generate_feedback s c a) = true.
Proof.
  intros H7 H9. apply Qgeb_ge in H7. apply Qgeb_lt in H9.
  destruct (generate_feedback_head s c a) as [rest ->].
  rewrite H9, H7. apply prefix_join_head.
Qed.

Lemma generate_feedback_needs_improvement s c a :
  s < 5#10 →
  String.prefix Spec.needs_improvement_model (_generate_feedback s c a) = true.
Proof.
  intros H.
  assert (Qgeb s (9#10) = false) as H9 by (apply Qgeb_lt; lra).
  assert (Qgeb s (7#10) = false) as H7 by (apply Qgeb_lt; lra).
  assert (Qgeb s (5#10) = false) as H5 by (by apply Qgeb_lt).
  destruct (generate_feedback_head s c a) as [rest ->].
  rewrite H9, H7, H5. apply prefix_join_head.
Qed.

End ModelFacts.

(** ** The two paths of a non-empty evaluation *)

Section Paths.

Local Open Scope Q_scope.

Variable TRANSFORMERS_AVAILABLE : bool.
Variable self : t.
Variables question correct_answer user_answer : string.
Variable max_marks : Z.
Variable criteria : option (list string).

Local Abbreviation evaluate_here :=
  (evaluate TRANSFORMERS_AVAILABLE no_faults self
     question correct_answer user_answer max_marks criteria).
Local Abbreviation fb :=
  (_evaluate_fallback question correct_answer user_answer max_marks criteria).
Local Abbreviation an :=
  (_analyze_answer_components question correct_answer user_answer).
Local Abbreviation model_answers :=
  (Spec.model_answers TRANSFORMERS_AVAILABLE self correct_answer user_answer).
Local Abbreviation falls_back :=
  (Spec.falls_back TRANSFORMERS_AVAILABLE self correct_answer user_answer).

Hypothesis loaded : _loaded self = true.
Hypothesis answered : Spec.blank user_answer = false.

Lemma paths_exclusive c : model_answers c → falls_back → False.
Proof.
  intros [HT (m & Hm & Hc)] [HF | [HN | (m' & e & Hm' & He)]];
    congruence.
Qed.

Lemma model_path c :
  model_answers c →
  evaluate_here
  = Return
      {| score := _calculate_final_score c an criteria;
         confidence :=
           _calculate_confidence TRANSFORMERS_AVAILABLE self c an
             (Py.len user_answer);
         feedback :=
           _generate_feedback (_calculate_final_score c an criteria) c an;
         semantic_similarity := c;
         detailed_analysis := an |}.
Proof.
  intros [HT (m & Hm & Hc)].
  apply (evaluate_model_returns _ _ _ _ _ _ _ _ loaded answered m); auto.
  unfold _evaluate_with_bert. rewrite Hc. reflexivity.
Qed.

Lemma fallback_path : falls_back → evaluate_here = Return fb.
Proof.
  intros [HF | [HN | (m & e & Hm & He)]].
  - rewrite evaluate_without_model; auto.
  - rewrite evaluate_without_model; auto.
  - destruct (decide (TRANSFORMERS_AVAILABLE = true)) as [HT|HT].
    + rewrite (evaluate_model_raises _ _ _ _ _ _ _ _ loaded answered m e);
        auto.
      unfold _evaluate_with_bert. rewrite He. reflexivity.
    + apply not_true_is_false in HT. rewrite evaluate_without_model; auto.
Qed.

(** Every non-empty evaluation takes one of the two paths. *)
Lemma path_cases : (∃ c, model_answers c) ∨ falls_back.
Proof.
  unfold Spec.model_answers, Spec.falls_back.
  destruct TRANSFORMERS_AVAILABLE; [|auto].
  destruct (model self) as [m|]; [|auto].
  destruct (m correct_answer user_answer) as [c|e] eqn:Hc;
    [left | right; right; right]; eauto.
Qed.

Lemma model_path_has_model c : model_answers c → has_model self = true.
Proof. intros [_ (m & Hm & _)]. unfold has_model. by rewrite Hm. Qed.

Lemma model_path_available c :
  model_answers c → TRANSFORMERS_AVAILABLE = true.
Proof. by intros [HT _]. Qed.

(** Where the ranges of score and similarity do hold: on the fallback
    path always, on the model path when the cosine similarity is in
    range. *)
Lemma score_and_similarity_ranges :
  ∃ r, evaluate_here = Return r
       ∧ score r <= 1
       ∧ (falls_back →
            0 <= score r ∧ 0 <= semantic_similarity r <= 1)
       ∧ (∀ c, model_answers c →
            semantic_similarity r = c ∧ (0 <= c → 0 <= score r)).
Proof.
  destruct path_cases as [[c Hc] | Hf].
  - eexists. split; [by apply model_path|]. cbn [score semantic_similarity].
    split; [apply final_score_le_1|]. split.
    + intros Hf. destruct (paths_exclusive c Hc Hf).
    + intros c' Hc'.
      assert (c' = c) as ->.
      { destruct Hc as [_ (m & Hm & Hr)], Hc' as [_ (m' & Hm' & Hr')].
        congruence. }
      split; [done | apply final_score_nonneg].
  - exists fb. split; [by apply fallback_path|].
    pose proof (fallback_score_bounds
                  question correct_answer user_answer max_marks criteria).
    pose proof (fallback_similarity_bounds
                  question correct_answer user_answer max_marks criteria).
    split; [tauto|]. split; [tauto|].
    intros c Hc. destruct (paths_exclusive c Hc Hf).
Qed.

End Paths.

(** ** Ranges, score composition, similarity and banding *)

Section Claims.

Local Open Scope Q_scope.

(** C2. The code leaves the declared range: with a model whose cosine
    similarity for the pair is -1/10, a non-empty answer gets a
    negative [semantic_similarity] and a negative [score], because
    [_calculate_final_score] clamps from above only and the similarity
    is returned as it comes. *)
Theorem C2_negative_cosine_leaves_range :
  ∃ r, evaluate true no_faults
         (Cases.with_model (Cases.constant_model (-1#10)))
         "define entropy" "a measure of disorder in a system" "no idea"
         5 None = Return r
       ∧ semantic_similarity r = -1#10
       ∧ score r < 0
       ∧ ¬ (0 <= score r <= 1)
       ∧ ¬ (0 <= semantic_similarity r <= 1).
Proof.
  eexists. split; [vm_compute; reflexivity|].
  cbn [score semantic_similarity].
  split; [reflexivity|]. split; [reflexivity|].
  split; intros [H _]; vm_compute in H; by apply H.
Qed.

(** C3, as the specification states it, fails: on the fallback path
    the confidence of a non-empty answer can be below 10. *)
Lemma C3_fallback_confidence_below_floor :
  ∃ r, evaluate false no_faults Cases.without_model
         "define entropy" "a measure of disorder in a system" "no idea"
         5 None = Return r
       ∧ confidence r < 10
       ∧ ¬ (10 <= confidence r <= 95).
Proof.
  eexists. split; [vm_compute; reflexivity|].
  cbn [confidence].
  split; [reflexivity|]. intros [H _]. vm_compute in H. by apply H.
Qed.

(** C3, amended. The confidence of a non-empty evaluation is between
    0 and 95; it is at most 85 when the fallback path was used, and at
    least 10 when the model path was used. The fallback path has no
    floor at 10. *)
Theorem C3_confidence_bounds
    (TRANSFORMERS_AVAILABLE : bool) (self : t)
    (question correct_answer user_answer : string)
    (max_marks : Z) (criteria : option (list string)) :
  _loaded self = true →
  Spec.blank user_answer = false →
  ∃ r, evaluate TRANSFORMERS_AVAILABLE no_faults self
         question correct_answer user_answer max_marks criteria = Return r
       ∧ 0 <= confidence r <= 95
       ∧ (Spec.falls_back TRANSFORMERS_AVAILABLE self
            correct_answer user_answer →
          confidence r <= 85)
       ∧ (∀ c, Spec.model_answers TRANSFORMERS_AVAILABLE self
                 correct_answer user_answer c →
               10 <= confidence r).
Proof.
  intros Hl Hb.
  destruct (path_cases TRANSFORMERS_AVAILABLE self
              correct_answer user_answer) as [[c Hc] | Hf].
  - pose proof (model_path_available _ _ _ _ c Hc) as ->.
    eexists. split; [by apply model_path|]. cbn [confidence].
    pose proof (confidence_bounds_with_model self c
                  (_analyze_answer_components
                     question correct_answer user_answer)
                  (Py.len user_answer)
                  (model_path_has_model _ _ _ _ c Hc)) as [H10 H95].
    split; [split; [lra | done]|]. split.
    + intros Hf. destruct (paths_exclusive _ _ _ _ c Hc Hf).
    + done.
  - eexists. split; [by apply fallback_path|].
    pose proof (fallback_confidence_bounds
                  question correct_answer user_answer max_marks criteria)
      as [H0 H80].
    split; [split; [done | lra]|]. split; [intros _; lra|].
    intros c Hc. destruct (paths_exclusive _ _ _ _ c Hc Hf).
Qed.

Lemma C3_confidence_witness :
  ∃ r, evaluate true no_faults
         (Cases.with_model (Cases.constant_model (4#5)))
         "What does photosynthesis do?"
         "Photosynthesis converts light energy into chemical energy"
         "Plants convert light into chemical energy" 5 None = Return r
       ∧ 0 <= confidence r <= 95
       ∧ (Spec.falls_back true
            (Cases.with_model (Cases.constant_model (4#5)))
            "Photosynthesis converts light energy into chemical energy"
            "Plants convert light into chemical energy" →
          confidence r <= 85)
       ∧ (∀ c, Spec.model_answers true
                 (Cases.with_model (Cases.constant_model (4#5)))
                 "Photosynthesis converts light energy into chemical energy"
                 "Plants convert light into chemical energy" c →
               10 <= confidence r).
Proof.
  apply (C3_confidence_bounds true
           (Cases.with_model (Cases.constant_model (4#5))));
    reflexivity.
Defined.

(** C4, as the specification states it, fails: on the fallback path
    the score is not the weighted pipeline applied to the similarity
    and analysis values that come with it, whatever length ratio is
    taken. *)
Lemma C4_fallback_score_not_pipeline :
  ∃ r, evaluate false no_faults Cases.without_model
         "What does photosynthesis do?"
         "Photosynthesis converts light energy into chemical energy"
         "Plants convert light into chemical energy" 5 None = Return r
       ∧ ∀ lengthRatio,
           ¬ score r
             == Spec.finalScore (semantic_similarity r)
                  (default 0 (keyword_coverage (detailed_analysis r)))
                  lengthRatio
                  (default 1 (semantic_coherence (detailed_analysis r))).
Proof.
  eexists. split; [vm_compute; reflexivity|].
  intros lr. unfold Spec.finalScore. cbv zeta.
  destruct (Qltb lr (3#10)); [|destruct (Qltb 3 lr)];
    vm_compute; discriminate.
Qed.

(** C4, amended. On the model path, with a non-negative similarity,
    the score is the weighted pipeline of the specification applied to
    the similarity and the analysis values, whatever the criteria; on
    the fallback path the score is the similarity capped at 1, with no
    keyword, length or coherence step. *)
Theorem C4_score_composition
    (TRANSFORMERS_AVAILABLE : bool) (self : t)
    (question correct_answer user_answer : string)
    (max_marks : Z) (criteria : option (list string)) :
  _loaded self = true →
  Spec.blank user_answer = false →
  ∃ r, evaluate TRANSFORMERS_AVAILABLE no_faults self
         question correct_answer user_answer max_marks criteria = Return r
       ∧ (∀ c, Spec.model_answers TRANSFORMERS_AVAILABLE self
                 correct_answer user_answer c →
               0 <= c →
               semantic_similarity r = c
               ∧ score r
                 == Spec.finalScore c
                      (default 0 (keyword_coverage (detailed_analysis r)))
                      (default 1 (length_ratio (detailed_analysis r)))
                      (default 1
                         (semantic_coherence (detailed_analysis r))))
       ∧ (Spec.falls_back TRANSFORMERS_AVAILABLE self
            correct_answer user_answer →
          score r = Qmin (semantic_similarity r) 1).
Proof.
  intros Hl Hb.
  destruct (path_cases TRANSFORMERS_AVAILABLE self
              correct_answer user_answer) as [[c Hc] | Hf].
  - eexists. split; [by apply model_path|].
    cbn [score semantic_similarity detailed_analysis]. split.
    + intros c' Hc' Hpos.
      assert (c = c') as ->.
      { destruct Hc as [_ (m & Hm & Hr)], Hc' as [_ (m' & Hm' & Hr')].
        congruence. }
      split; [done | by apply final_score_spec].
    + intros Hf. destruct (paths_exclusive _ _ _ _ c Hc Hf).
  - eexists. split; [by apply fallback_path|]. split.
    + intros c Hc. destruct (paths_exclusive _ _ _ _ c Hc Hf).
    + intros _. apply fallback_score_eq.
Qed.

Lemma C4_score_composition_witness :
  ∃ r, evaluate true no_faults
         (Cases.with_model (Cases.constant_model (4#5)))
         "What does photosynthesis do?"
         "Photosynthesis converts light energy into chemical energy"
         "Plants convert light into chemical energy" 5
         (Some ["accuracy"]) = Return r
       ∧ (∀ c, Spec.model_answers true
                 (Cases.with_model (Cases.constant_model (4#5)))
                 "Photosynthesis converts light energy into chemical energy"
                 "Plants convert light into chemical energy" c →
               0 <= c →
               semantic_similarity r = c
               ∧ score r
                 == Spec.finalScore c
                      (default 0 (keyword_coverage (detailed_analysis r)))
                      (default 1 (length_ratio (detailed_analysis r)))
                      (default 1
                         (semantic_coherence (detailed_analysis r))))
       ∧ (Spec.falls_back true
            (Cases.with_model (Cases.constant_model (4#5)))
            "Photosynthesis converts light energy into chemical energy"
            "Plants convert light into chemical energy" →
          score r = Qmin (semantic_similarity r) 1).
Proof.
  apply (C4_score_composition true
           (Cases.with_model (Cases.constant_model (4#5))));
    reflexivity.
Defined.

(** C7. On the fallback path the similarity returned for a non-empty
    answer is 0.7 times the word-overlap ratio plus 0.3 times
    min(len(candidate)/max(len(reference),1), 1); the ratio is the
    size of the intersection over the size of the reference set, on
    lower-cased white-space-split tokens without the stop words and
    with short tokens kept, and it is 0 for an empty reference set. *)
Theorem C7_fallback_similarity
    (TRANSFORMERS_AVAILABLE : bool) (self : t)
    (question correct_answer user_answer : string)
    (max_marks : Z) (criteria : option (list string)) :
  _loaded self = true →
  Spec.blank user_answer = false →
  Spec.falls_back TRANSFORMERS_AVAILABLE self correct_answer user_answer →
  ∃ r, evaluate TRANSFORMERS_AVAILABLE no_faults self
         question correct_answer user_answer max_marks criteria = Return r
       ∧ semantic_similarity r
         == Spec.fallbackSimilarity correct_answer user_answer.
Proof.
  intros Hl Hb Hf. eexists. split; [by apply fallback_path|].
  apply fallback_similarity_spec.
Qed.

Lemma C7_fallback_similarity_witness :
  ∃ r, evaluate false no_faults Cases.without_model
         "What does photosynthesis do?"
         "Photosynthesis converts light energy into chemical energy"
         "Plants convert light into chemical energy" 5 None = Return r
       ∧ semantic_similarity r
         == Spec.fallbackSimilarity
              "Photosynthesis converts light energy into chemical energy"
              "Plants convert light into chemical energy".
Proof.
  apply (C7_fallback_similarity false Cases.without_model);
    [reflexivity | reflexivity | left; reflexivity].
Defined.

(** C8, as the specification states it, fails: on the model path a
    score of 0.874 is at least 0.8 and the feedback opens with the
    "good" sentence, not with an "excellent" one. *)
Lemma C8_model_score_above_08_not_excellent :
  ∃ r, evaluate true no_faults
         (Cases.with_model (Cases.constant_model (4#5)))
         "What do plants do?" "plants convert light energy"
         "light energy plants convert" 5 None = Return r
       ∧ 8#10 <= score r
       ∧ Spec.starts_excellent (feedback r) = false
       ∧ String.prefix Spec.good_model (feedback r) = true.
Proof.
  eexists. split; [vm_compute; reflexivity|].
  cbn [score feedback]. split; [discriminate|]. split; reflexivity.
Qed.

(** C8, amended. A non-empty evaluation answers on one of the two paths,
    and its feedback opens with the sentence of that path for the band
    of the returned score. On the fallback path: the fallback's "needs
    improvement" sentence when the score is below 0.4, the fallback's
    "excellent" sentence when it is at least 0.8. On the model path: the
    model path's "needs improvement" sentence when the score is below
    0.4, its "excellent" sentence when the score is at least 0.9, and
    its "good" sentence for a score from 0.8 up to 0.9. *)
Theorem C8_feedback_bands
    (TRANSFORMERS_AVAILABLE : bool) (self : t)
    (question correct_answer user_answer : string)
    (max_marks : Z) (criteria : option (list string)) :
  _loaded self = true →
  Spec.blank user_answer = false →
  ∃ r, evaluate TRANSFORMERS_AVAILABLE no_faults self
         question correct_answer user_answer max_marks criteria = Return r
       ∧ (Spec.falls_back TRANSFORMERS_AVAILABLE self
            correct_answer user_answer
          ∨ ∃ c, Spec.model_answers TRANSFORMERS_AVAILABLE self
                   correct_answer user_answer c)
       ∧ (Spec.falls_back TRANSFORMERS_AVAILABLE self
            correct_answer user_answer →
          (score r < 4#10 →
           String.prefix Spec.needs_improvement_fallback (feedback r) = true)
          ∧ (8#10 <= score r →
             String.prefix Spec.excellent_fallback (feedback r) = true))
       ∧ (∀ c, Spec.model_answers TRANSFORMERS_AVAILABLE self
                 correct_answer user_answer c →
               (score r < 4#10 →
                String.prefix Spec.needs_improvement_model (feedback r)
                = true)
               ∧ (9#10 <= score r →
                  String.prefix Spec.excellent_model (feedback r) = true)
               ∧ (8#10 <= score r → score r < 9#10 →
                  String.prefix Spec.good_model (feedback r) = true)).
Proof.
  intros Hl Hb.
  destruct (path_cases TRANSFORMERS_AVAILABLE self
              correct_answer user_answer) as [[c Hc] | Hf].
  - eexists. split; [by apply model_path|]. cbn [score feedback].
    split; [right; by exists c|]. split.
    + intros Hf. destruct (paths_exclusive _ _ _ _ c Hc Hf).
    + intros c' _. split; [|split].
      * intros H. apply generate_feedback_needs_improvement. lra.
      * intros H. by apply generate_feedback_excellent.
      * intros H8 H9. apply generate_feedback_good; [lra | done].
  - eexists. split; [by apply fallback_path|].
    split; [by left|]. split.
    + intros _. split.
      * intros H. rewrite fallback_feedback_needs_improvement by done.
        apply prefix_refl.
      * intros H. rewrite fallback_feedback_excellent by done.
        apply prefix_refl.
    + intros c Hc. destruct (paths_exclusive _ _ _ _ c Hc Hf).
Qed.

Lemma C8_feedback_bands_witness :
  ∃ r, evaluate false no_faults Cases.without_model
         "What does photosynthesis do?"
         "Photosynthesis converts light energy into chemical energy"
         "Photosynthesis converts light energy into chemical energy" 5 None
       = Return r
       ∧ (Spec.falls_back false Cases.without_model
            "Photosynthesis converts light energy into chemical energy"
            "Photosynthesis converts light energy into chemical energy"
          ∨ ∃ c, Spec.model_answers false Cases.without_model
                   "Photosynthesis converts light energy into chemical energy"
                   "Photosynthesis converts light energy into chemical energy"
                   c)
       ∧ (Spec.falls_back false Cases.without_model
            "Photosynthesis converts light energy into chemical energy"
            "Photosynthesis converts light energy into chemical energy" →
          (score r < 4#10 →
           String.prefix Spec.needs_improvement_fallback (feedback r) = true)
          ∧ (8#10 <= score r →
             String.prefix Spec.excellent_fallback (feedback r) = true))
       ∧ (∀ c, Spec.model_answers false Cases.without_model
                 "Photosynthesis converts light energy into chemical energy"
                 "Photosynthesis converts light energy into chemical energy"
                 c →
               (score r < 4#10 →
                String.prefix Spec.needs_improvement_model (feedback r)
                = true)
               ∧ (9#10 <= score r →
                  String.prefix Spec.excellent_model (feedback r) = true)
               ∧ (8#10 <= score r → score r < 9#10 →
                  String.prefix Spec.good_model (feedback r) = true)).
Proof.
  apply (C8_feedback_bands false Cases.without_model); reflexivity.
Defined.

End Claims.

(** ** Important terms *)

Section CharacterClasses.

(** A fact of the characters U+0000 to U+00FF: above them some upper-case
    characters have no lower-case form and [str.lower] leaves them. *)
Lemma isupper_lower_char c : Py.isupper (Py.lower_char c) = false.
Proof. destruct c as [[] [] [] [] [] [] [] []]; reflexivity. Qed.

Lemma any_isupper_lower s : Py.any Py.isupper (Py.lower s) = false.
Proof.
  induction s as [|c s IH]; simpl; [done|].
  by rewrite isupper_lower_char, IH.
Qed.

(** A class of characters [q] that the space is not in. The string
    operations of [preprocess] only drop characters or write spaces,
    so a string free of [q] stays free of it. *)
Variable q : ascii → bool.
Hypothesis q_space : q " "%char = false.

Lemma any_cons c s :
  Py.any q (String c s) = false ↔ q c = false ∧ Py.any q s = false.
Proof. simpl. apply orb_false_iff. Qed.

Lemma any_rev_app s acc :
  Py.any q (String.rev_app s acc) = Py.any q s || Py.any q acc.
Proof.
  revert acc. induction s as [|c s IH]; intros acc; simpl; [done|].
  rewrite IH. simpl. by destruct (q c), (Py.any q s), (Py.any q acc).
Qed.

Lemma any_rev s : Py.any q (String.rev s) = Py.any q s.
Proof. unfold String.rev. rewrite any_rev_app. simpl. apply orb_false_r. Qed.

Lemma any_lstrip s : Py.any q s = false → Py.any q (Py.lstrip s) = false.
Proof.
  induction s as [|c s IH]; simpl; [done|].
  intros [Hc Hs]%orb_false_iff.
  destruct (Py.isspace c); [auto | simpl; by rewrite Hc, Hs].
Qed.

Lemma any_strip s : Py.any q s = false → Py.any q (Py.strip s) = false.
Proof.
  intros H. unfold Py.strip, Py.rstrip.
  rewrite any_rev. apply any_lstrip. rewrite any_rev. by apply any_lstrip.
Qed.

Lemma any_delete_chars p s :
  Py.any q s = false → Py.any q (Py.delete_chars p s) = false.
Proof.
  induction s as [|c s IH]; simpl; [done|].
  intros [Hc Hs]%orb_false_iff.
  destruct (p c); [auto | simpl; rewrite Hc; auto].
Qed.

Lemma any_sub_runs p b s :
  Py.any q s = false → Py.any q (Py.sub_runs p b s) = false.
Proof.
  revert b. induction s as [|c s IH]; intros b; simpl; [done|].
  intros [Hc Hs]%orb_false_iff.
  destruct (p c); [destruct b|]; simpl; rewrite ?q_space, ?Hc; simpl; auto.
Qed.

Lemma any_split_go cur s w :
  Py.any q cur = false → Py.any q s = false →
  w ∈ Py.split_go cur s → Py.any q w = false.
Proof.
  revert cur. induction s as [|c s IH]; intros cur Hcur Hs; simpl.
  - destruct cur; [by intros ?%elem_of_nil|].
    intros ->%list_elem_of_singleton. by rewrite any_rev.
  - apply orb_false_iff in Hs as [Hc Hs].
    destruct (Py.isspace c).
    + intros [Hw | Hw]%elem_of_app; [|by apply (IH "")].
      destruct cur; [by apply elem_of_nil in Hw|].
      apply list_elem_of_singleton in Hw as ->. by rewrite any_rev.
    + apply IH; [|done]. simpl. by rewrite Hc, Hcur.
Qed.

Lemma any_split s w :
  Py.any q s = false → w ∈ Py.split s → Py.any q w = false.
Proof. by apply any_split_go. Qed.

End CharacterClasses.

Section ImportantTerms.

Import TextProcessor.

Variable stop_words : gset string.

(** No word that [extract_important_terms] looks at has an upper-case
    character: [preprocess] has lower-cased the text. *)
Lemma processed_word_no_upper text w :
  w ∈ Py.split (preprocess stop_words text false) →
  Py.any Py.isupper w = false.
Proof.
  intros Hw. eapply (any_split Py.isupper); [|exact Hw].
  unfold preprocess.
  destruct (Py.truthy text); simpl negb; cbv iota zeta; [|done].
  apply any_strip, any_sub_runs; [reflexivity|].
  apply any_delete_chars, any_strip, any_sub_runs; [reflexivity|].
  apply any_isupper_lower.
Qed.

(** So the test on upper-case characters of line 160 never holds. *)
Lemma is_important_on_processed text w :
  w ∈ Py.split (preprocess stop_words text false) →
  is_important stop_words w
  = negb ((Py.len w <=? 2)%nat || Py.mem w stop_words)
    && ((4 <? Py.len w)%nat || negb (Py.mem w _get_common_words)).
Proof.
  intros Hw. unfold is_important.
  rewrite (processed_word_no_upper text w Hw).
  destruct ((Py.len w <=? 2)%nat || Py.mem w stop_words); [done|].
  simpl. by rewrite orb_false_r.
Qed.

(** The second loop keeps [seen] equal to the set of [unique_terms],
    keeps [unique_terms] free of duplicates, and appends terms in the
    order of the input. *)
Lemma dedup_loop terms :
  ∀ (seen : gset string) (unique_terms : list string),
    seen = list_to_set unique_terms →
    NoDup unique_terms →
    ∃ added,
      (fold_left dedup_step terms (seen, unique_terms)).2
      = unique_terms ++ added
      ∧ NoDup (unique_terms ++ added)
      ∧ sublist added terms.
Proof.
  induction terms as [|term terms IH]; intros seen unique_terms Hs Hn.
  - exists []. simpl. rewrite app_nil_r. by repeat split.
  - simpl. unfold Py.mem. case_bool_decide as Hin.
    + destruct (IH seen unique_terms Hs Hn) as (added & He & Hd & Hsub).
      exists added. repeat split; [done..|]. by apply sublist_cons.
    + destruct (IH ({[term]} ∪ seen) (unique_terms ++ [term]))
        as (added & He & Hd & Hsub).
      * subst seen. rewrite list_to_set_app_L, (comm_L (∪)). simpl.
        by rewrite (right_id_L ∅ (∪)).
      * apply NoDup_app. repeat split; [done| |apply NoDup_singleton].
        intros x Hx ->%list_elem_of_singleton. apply Hin. subst seen.
        by apply elem_of_list_to_set.
      * exists (term :: added). rewrite <- app_assoc in He, Hd.
        repeat split; [done..|]. by apply sublist_skip.
Qed.

Lemma filter_sublist {A} (f : A → bool) (l : list A) :
  sublist (List.filter f l) l.
Proof.
  induction l as [|x l IH]; simpl; [done|].
  destruct (f x); [by apply sublist_skip | by apply sublist_cons].
Qed.

(** The parts of C9 that hold: at most 10 terms, no duplicates, in
    the order of the words of the text, none of length 2 or less and
    none a stop word. *)
Lemma extract_important_terms_sound text :
  let terms := extract_important_terms stop_words text in
  (length terms ≤ 10)%nat
  ∧ NoDup terms
  ∧ sublist terms (Py.split (preprocess stop_words text false))
  ∧ ∀ w, w ∈ terms → (2 < Py.len w)%nat ∧ w ∉ stop_words.
Proof.
  unfold extract_important_terms.
  destruct (Py.truthy text); simpl negb; cbv iota zeta.
  2:{ split; [simpl; lia|]. split; [constructor|].
      split; [apply sublist_nil_l|]. by intros w ?%elem_of_nil. }
  set (words := Py.split (preprocess stop_words text false)).
  set (important := List.filter (is_important stop_words) words).
  destruct (dedup_loop important ∅ [] eq_refl NoDup_nil_2)
    as (added & He & Hd & Hsub). simpl in He, Hd.
  destruct (fold_left dedup_step important (∅, [])) as [seen unique].
  simpl in He. subst unique.
  assert (sublist (take 10 added) important) as Hsub'.
  { etrans; [apply sublist_take | done]. }
  split; [rewrite length_take; lia|].
  split; [eapply sublist_NoDup; [exact Hd | apply sublist_take]|].
  split; [etrans; [exact Hsub' | apply filter_sublist]|].
  intros w Hw.
  assert (w ∈ important) as Hi by (by eapply elem_of_sublist).
  apply list_elem_of_In, filter_In in Hi as [_ Hi].
  unfold is_important, Py.mem in Hi.
  destruct (Py.len w <=? 2)%nat eqn:Hlen; [done|].
  apply Nat.leb_gt in Hlen. split; [lia|].
  case_bool_decide; [done|]. done.
Qed.

Example extract_first_seen_order :
  extract_important_terms fallback_stop_words
    "osmosis moves water; diffusion moves solutes, osmosis too"
  = ["osmosis"; "moves"; "water"; "diffusion"; "solutes"; "too"].
Proof. vm_compute. reflexivity. Qed.

End ImportantTerms.

(** C9. The code does not keep a token on account of an upper-case
    character. In "Work equals force times distance" the token "Work"
    has an upper-case character in the text; lower-cased it has length 4
    and is a common word, it is not a stop word, and
    [extract_important_terms] leaves it out. The test of line 160 runs
    on the lower-cased word and never holds. *)
Theorem C9_uppercase_token_not_kept :
  Py.split "Work equals force times distance"
  = ["Work"; "equals"; "force"; "times"; "distance"]
  ∧ Py.any Py.isupper "Work" = true
  ∧ Py.split (TextProcessor.preprocess TextProcessor.fallback_stop_words
                "Work equals force times distance" false)
    = ["work"; "equals"; "force"; "times"; "distance"]
  ∧ Py.len "work" = 4%nat
  ∧ Py.mem "work" TextProcessor._get_common_words = true
  ∧ Py.mem "work" TextProcessor.fallback_stop_words = false
  ∧ TextProcessor.extract_important_terms TextProcessor.fallback_stop_words
      "Work equals force times distance"
    = ["equals"; "force"; "times"; "distance"].
Proof.
  split; [reflexivity|]. split; [reflexivity|].
  split; [vm_compute; reflexivity|]. split; [reflexivity|].
  split; [vm_compute; reflexivity|]. split; [vm_compute; reflexivity|].
  vm_compute. reflexivity.
Qed.

(** * Further properties of the code *)

(** ** Reversal, [strip] and [split] *)

Section StringFacts.

Lemma append_nil_l s : "" +:+ s = s.
Proof. reflexivity. Qed.

Lemma append_cons c s t : String c s +:+ t = String c (s +:+ t).
Proof. reflexivity. Qed.

Lemma append_nil_r s : s +:+ "" = s.
Proof.
  induction s as [|c s IH]; [done|]. by rewrite append_cons, IH.
Qed.

Lemma append_assoc s1 s2 s3 : (s1 +:+ s2) +:+ s3 = s1 +:+ (s2 +:+ s3).
Proof.
  induction s1 as [|c s1 IH]; [done|]. by rewrite !append_cons, IH.
Qed.

Lemma rev_app_append s acc : String.rev_app s acc = String.rev s +:+ acc.
Proof.
  unfold String.rev. revert acc.
  induction s as [|c s IH]; intros acc; [done|]. simpl.
  rewrite (IH (String c acc)), (IH (String c "")), append_assoc. done.
Qed.

Lemma rev_cons c s : String.rev (String c s) = String.rev s +:+ String c "".
Proof. unfold String.rev at 1. simpl. apply rev_app_append. Qed.

Lemma rev_append s1 s2 :
  String.rev (s1 +:+ s2) = String.rev s2 +:+ String.rev s1.
Proof.
  induction s1 as [|c s1 IH]; [by rewrite append_nil_l, append_nil_r|].
  rewrite append_cons, !rev_cons, IH, append_assoc. done.
Qed.

Lemma rev_involutive s : String.rev (String.rev s) = s.
Proof.
  induction s as [|c s IH]; [done|].
  rewrite rev_cons, rev_append, IH. done.
Qed.

(** A string that does not begin with white space. *)
Let starts_clean (s : string) : bool :=
  match s with
  | EmptyString => true
  | String c _ => negb (Py.isspace c)
  end.

Lemma lstrip_starts_clean s : starts_clean (Py.lstrip s) = true.
Proof.
  induction s as [|c s IH]; [done|]. simpl.
  destruct (Py.isspace c) eqn:Hc; [done|]. simpl. by rewrite Hc.
Qed.

Lemma lstrip_of_clean s : starts_clean s = true → Py.lstrip s = s.
Proof. destruct s as [|c s]; [done|]. simpl. by destruct (Py.isspace c). Qed.

Lemma lstrip_idemp s : Py.lstrip (Py.lstrip s) = Py.lstrip s.
Proof. apply lstrip_of_clean, lstrip_starts_clean. Qed.

Lemma rstrip_idemp s : Py.rstrip (Py.rstrip s) = Py.rstrip s.
Proof. unfold Py.rstrip. by rewrite rev_involutive, lstrip_idemp. Qed.

Lemma lstrip_keeps_last u c :
  Py.isspace c = false →
  ∃ v, Py.lstrip (u +:+ String c "") = v +:+ String c "".
Proof.
  intros Hc. induction u as [|d u IH].
  - exists "". rewrite !append_nil_l. simpl. by rewrite Hc.
  - rewrite append_cons. simpl.
    destruct (Py.isspace d); [done|]. exists (String d u).
    by rewrite append_cons.
Qed.

Lemma rstrip_starts_clean s :
  starts_clean s = true → starts_clean (Py.rstrip s) = true.
Proof.
  destruct s as [|c s]; [done|]. simpl. intros Hc%negb_true_iff.
  unfold Py.rstrip. rewrite rev_cons.
  destruct (lstrip_keeps_last (String.rev s) c Hc) as [v ->].
  rewrite rev_append. change (String.rev (String c "")) with (String c "").
  rewrite append_cons. simpl. by rewrite Hc.
Qed.

(** [strip] does nothing to a string that is already stripped. *)
Lemma strip_idemp s : Py.strip (Py.strip s) = Py.strip s.
Proof.
  unfold Py.strip.
  rewrite (lstrip_of_clean (Py.rstrip (Py.lstrip s))).
  - apply rstrip_idemp.
  - apply rstrip_starts_clean, lstrip_starts_clean.
Qed.

Lemma lstrip_split s :
  ∃ w, Py.all Py.isspace w = true ∧ s = w +:+ Py.lstrip s.
Proof.
  induction s as [|c s (w & Hw & IH)]; [by exists ""|]. simpl.
  destruct (Py.isspace c) eqn:Hc.
  - exists (String c w). simpl. rewrite Hc, Hw, append_cons.
    by rewrite <- IH.
  - by exists "".
Qed.

Lemma rstrip_split s :
  ∃ w, Py.all Py.isspace w = true ∧ s = Py.rstrip s +:+ w.
Proof.
  destruct (lstrip_split (String.rev s)) as (w & Hw & Hs).
  exists (String.rev w). split; [by rewrite rev_all|].
  unfold Py.rstrip. rewrite <- rev_append, <- Hs, rev_involutive. done.
Qed.

Lemma split_go_blank cur w :
  Py.all Py.isspace w = true → Py.split_go cur w = Py.flush cur.
Proof.
  revert cur. induction w as [|c w IH]; intros cur; simpl; [done|].
  intros [-> Hw]%andb_true_iff. rewrite (IH "" Hw). simpl.
  apply app_nil_r.
Qed.

Lemma split_go_append_blank cur s w :
  Py.all Py.isspace w = true →
  Py.split_go cur (s +:+ w) = Py.split_go cur s.
Proof.
  intros Hw. revert cur. induction s as [|c s IH]; intros cur.
  - rewrite append_nil_l. by apply split_go_blank.
  - rewrite append_cons. simpl. destruct (Py.isspace c); by rewrite IH.
Qed.

Lemma split_lstrip s : Py.split (Py.lstrip s) = Py.split s.
Proof.
  unfold Py.split. induction s as [|c s IH]; [done|]. simpl.
  destruct (Py.isspace c) eqn:Hc; [done|]. simpl. by rewrite Hc.
Qed.

(** [split] does not see leading or trailing white space. *)
Lemma split_strip s : Py.split (Py.strip s) = Py.split s.
Proof.
  unfold Py.strip. rewrite <- (split_lstrip s).
  destruct (rstrip_split (Py.lstrip s)) as (w & Hw & Hs).
  rewrite Hs at 2. unfold Py.split. by rewrite split_go_append_blank.
Qed.

(** The pieces of [split] are not empty and have no white space. *)
Lemma split_go_words cur s w :
  Py.any Py.isspace cur = false →
  w ∈ Py.split_go cur s →
  w ≠ "" ∧ Py.any Py.isspace w = false.
Proof.
  revert cur. induction s as [|c s IH]; intros cur Hcur; simpl.
  - destruct cur as [|d cur]; [by intros ?%elem_of_nil|].
    intros ->%list_elem_of_singleton. split.
    + intros H%rev_empty. discriminate.
    + by rewrite any_rev.
  - destruct (Py.isspace c) eqn:Hc.
    + intros [Hw | Hw]%elem_of_app; [|by apply (IH "")].
      destruct cur as [|d cur]; [by apply elem_of_nil in Hw|].
      apply list_elem_of_singleton in Hw as ->. split.
      * intros H%rev_empty. discriminate.
      * by rewrite any_rev.
    + apply IH. simpl. by rewrite Hc, Hcur.
Qed.

Lemma split_words s w :
  w ∈ Py.split s → w ≠ "" ∧ Py.any Py.isspace w = false.
Proof. by apply split_go_words. Qed.

Lemma split_go_word cur w s :
  Py.any Py.isspace w = false →
  Py.split_go cur (w +:+ s) = Py.split_go (String.rev_app w cur) s.
Proof.
  revert cur. induction w as [|c w IH]; intros cur H; [done|].
  simpl in H. apply orb_false_iff in H as [Hc Hw].
  rewrite append_cons. simpl. rewrite Hc. by apply IH.
Qed.

Lemma split_go_space cur s :
  Py.split_go cur (String " " s) = Py.flush cur ++ Py.split_go "" s.
Proof. reflexivity. Qed.

Lemma flush_rev w : w ≠ "" → Py.flush (String.rev w) = [w].
Proof.
  intros Hw. destruct (String.rev w) eqn:Hr.
  - by apply rev_empty in Hr.
  - simpl. by rewrite <- Hr, rev_involutive.
Qed.

(** Joining words with single spaces and splitting again gives the
    words back. *)
Lemma split_join ws :
  (∀ w, w ∈ ws → w ≠ "" ∧ Py.any Py.isspace w = false) →
  Py.split (Py.join " " ws) = ws.
Proof.
  unfold Py.split. induction ws as [|p ws IH]; intros Hws; [done|].
  destruct (Hws p) as [Hp Hsp]; [by left|].
  destruct ws as [|q ws].
  - simpl. rewrite <- (append_nil_r p) at 1.
    rewrite split_go_word by done. simpl. by apply flush_rev.
  - change (Py.join " " (p :: q :: ws))
      with (p +:+ " " +:+ Py.join " " (q :: ws)).
    rewrite split_go_word by done. rewrite append_cons, append_nil_l.
    rewrite split_go_space.
    rewrite IH by (intros w Hw; apply Hws; by right).
    fold (String.rev p). by rewrite flush_rev.
Qed.

Lemma split_join_split s : Py.split (Py.join " " (Py.split s)) = Py.split s.
Proof. apply split_join. intros w. apply split_words. Qed.

End StringFacts.

(** ** What [preprocess] leaves in a text *)

Section PreprocessFacts.

Import TextProcessor.

Lemma any_append q s t : Py.any q (s +:+ t) = Py.any q s || Py.any q t.
Proof.
  induction s as [|c s IH]; [done|].
  rewrite append_cons. simpl. by rewrite IH, orb_assoc.
Qed.

Lemma any_orb p q s :
  Py.any (λ c, p c || q c) s = Py.any p s || Py.any q s.
Proof.
  induction s as [|c s IH]; [done|]. simpl. rewrite IH.
  by destruct (p c), (q c), (Py.any p s), (Py.any q s).
Qed.

Lemma any_ext p q s : (∀ c, p c = q c) → Py.any p s = Py.any q s.
Proof. intros H. induction s as [|c s IH]; [done|]. simpl. by rewrite H, IH. Qed.

Lemma all_negb_any p s : Py.all p s = negb (Py.any (λ c, negb (p c)) s).
Proof.
  induction s as [|c s IH]; [done|]. simpl. rewrite IH.
  by destruct (p c).
Qed.

(** Deleting the class [p] removes what is in [q], if [q] is within [p]
    on the string. *)
Lemma any_delete_chars_within q p s :
  Py.any (λ c, q c && negb (p c)) s = false →
  Py.any q (Py.delete_chars p s) = false.
Proof.
  induction s as [|c s IH]; simpl; [done|].
  intros [Hc Hs]%orb_false_iff.
  destruct (p c) eqn:Hp; [auto|]. simpl.
  rewrite andb_true_r in Hc. rewrite Hc. auto.
Qed.

Lemma any_sub_runs_within q p b s :
  q " "%char = false →
  Py.any (λ c, q c && negb (p c)) s = false →
  Py.any q (Py.sub_runs p b s) = false.
Proof.
  intros Hq. revert b. induction s as [|c s IH]; intros b; simpl; [done|].
  intros [Hc Hs]%orb_false_iff.
  destruct (p c) eqn:Hp; [destruct b|]; simpl.
  - by apply IH.
  - rewrite Hq. by apply IH.
  - rewrite andb_true_r in Hc. rewrite Hc. by apply IH.
Qed.

Lemma any_join q ws :
  q " "%char = false →
  (∀ w, w ∈ ws → Py.any q w = false) →
  Py.any q (Py.join " " ws) = false.
Proof.
  intros Hq. induction ws as [|p ws IH]; intros Hws; [done|].
  destruct ws as [|p' ws]; [apply Hws; by left|].
  change (Py.join " " (p :: p' :: ws))
    with (p +:+ " " +:+ Py.join " " (p' :: ws)).
  rewrite !any_append, (Hws p) by (by left). simpl. rewrite Hq. simpl.
  apply IH. intros w Hw. apply Hws. by right.
Qed.

(** The characters that [preprocess] takes out or rewrites: upper-case
    letters, white space other than the space, the punctuation of its
    second pattern and the characters outside its first. *)
Let dirty (c : ascii) : bool :=
  Py.isupper c
  || (Py.isspace c && negb (Py.is_code 32 c))
  || is_special c
  || is_basic_punct c.

Lemma dirty_space : dirty " " = false.
Proof. reflexivity. Qed.

Lemma dirty_lower_char c :
  dirty (Py.lower_char c) && negb (Py.isspace (Py.lower_char c))
  && negb (is_special (Py.lower_char c))
  && negb (is_basic_punct (Py.lower_char c)) = false.
Proof. destruct c as [[] [] [] [] [] [] [] []]; reflexivity. Qed.

(** Three predicates on characters that follow the text through the
    steps of [preprocess]. *)
Let q1 (c : ascii) : bool :=
  dirty c && negb (Py.isspace c) && negb (is_special c)
  && negb (is_basic_punct c).
Let q2 (c : ascii) : bool :=
  dirty c && negb (is_special c) && negb (is_basic_punct c).
Let q3 (c : ascii) : bool := dirty c && negb (is_basic_punct c).

Lemma lowered_q1 text : Py.any q1 (Py.lower text) = false.
Proof.
  induction text as [|c s IH]; [done|]. simpl. rewrite IH.
  unfold q1. by rewrite dirty_lower_char.
Qed.

Lemma q2_within c : q2 c && negb (Py.isspace c) = q1 c.
Proof. destruct c as [[] [] [] [] [] [] [] []]; reflexivity. Qed.

Lemma q3_within c : q3 c && negb (is_special c) = q2 c.
Proof. destruct c as [[] [] [] [] [] [] [] []]; reflexivity. Qed.

Lemma dirty_within c : dirty c && negb (is_basic_punct c) = q3 c.
Proof. reflexivity. Qed.

(** The text after the four rewriting steps of [preprocess], before the
    stop words are taken out. *)
Lemma rewritten_clean text :
  Py.any dirty
    (Py.sub_runs is_basic_punct false
       (Py.delete_chars is_special
          (Py.strip (Py.sub_runs Py.isspace false (Py.lower text)))))
  = false.
Proof.
  apply any_sub_runs_within; [done|]. fold q3.
  apply any_delete_chars_within.
  rewrite (any_ext _ q2) by apply q3_within.
  apply any_strip, any_sub_runs_within; [done|].
  rewrite (any_ext _ q1) by apply q2_within.
  apply lowered_q1.
Qed.

Variable stop_words : gset string.

Lemma preprocess_not_dirty text flag :
  Py.any dirty (preprocess stop_words text flag) = false.
Proof.
  unfold preprocess. destruct (Py.truthy text); simpl negb; cbv iota zeta;
    [|done].
  apply any_strip. destruct flag; [|apply rewritten_clean].
  apply any_join; [done|]. intros w Hw%list_elem_of_filter.
  destruct Hw as [_ Hw]. revert Hw. apply any_split, rewritten_clean.
Qed.

Lemma any_mono p q s :
  (∀ c, p c = true → q c = true) → Py.any q s = false → Py.any p s = false.
Proof.
  intros Hpq. induction s as [|c s IH]; [done|]. simpl.
  intros [Hc Hs]%orb_false_iff. rewrite (IH Hs), orb_false_r.
  destruct (p c) eqn:Hp; [|done]. by rewrite (Hpq c Hp) in Hc.
Qed.

Lemma not_space_or_word_dirty c :
  negb (Py.is_code 32 c || Py.isword c) = true → dirty c = true.
Proof. destruct c as [[] [] [] [] [] [] [] []]; done. Qed.

Lemma capital_dirty c : Py.between 65 90 c = true → dirty c = true.
Proof. destruct c as [[] [] [] [] [] [] [] []]; done. Qed.

(** X1. Whatever the text and the flag, the output of [preprocess] has
    only spaces and word characters (the class [\w]), none of them a
    capital letter [A] to [Z], and no white space at either end. *)
Theorem preprocess_output_clean text flag :
  Py.all (λ c, Py.is_code 32 c || Py.isword c)
    (preprocess stop_words text flag) = true
  ∧ Py.any (Py.between 65 90) (preprocess stop_words text flag) = false
  ∧ Py.strip (preprocess stop_words text flag)
    = preprocess stop_words text flag.
Proof.
  split; [|split].
  - rewrite all_negb_any. apply negb_true_iff.
    apply (any_mono _ dirty); [apply not_space_or_word_dirty|].
    apply preprocess_not_dirty.
  - apply (any_mono _ dirty); [apply capital_dirty|].
    apply preprocess_not_dirty.
  - unfold preprocess. destruct (Py.truthy text); simpl negb; cbv iota zeta;
      [apply strip_idemp | done].
Qed.

(** X2. With [remove_stopwords] the words of the output are the words of
    the output without it, in the same order, less the stop words; so no
    word of the output is a stop word. *)
Theorem preprocess_removes_stop_words text :
  Py.split (preprocess stop_words text true)
  = filter (λ w, w ∉ stop_words)
      (Py.split (preprocess stop_words text false))
  ∧ Forall (λ w, w ∉ stop_words)
      (Py.split (preprocess stop_words text true)).
Proof.
  assert (Py.split (preprocess stop_words text true)
          = filter (λ w, w ∉ stop_words)
              (Py.split (preprocess stop_words text false))) as Heq.
  { unfold preprocess.
    destruct (Py.truthy text); simpl negb; cbv iota zeta; [|done].
    rewrite !split_strip. apply split_join.
    intros w [_ Hw]%list_elem_of_filter. by apply split_words in Hw. }
  split; [done|]. rewrite Heq. apply Forall_forall.
  by intros w [? _]%list_elem_of_filter.
Qed.

End PreprocessFacts.

(** ** Sorting by length *)

Section SortFacts.

(** Longest first. *)
Let longer_first (x y : string) : Prop := (Py.len y ≤ Py.len x)%nat.

Lemma insert_by_len_perm x l : Py.insert_by_len x l ≡ₚ x :: l.
Proof.
  induction l as [|y l IH]; [done|]. simpl.
  destruct (Py.len y <=? Py.len x)%nat; [done|].
  rewrite IH. apply Permutation_swap.
Qed.

Lemma sorted_by_len_reverse_perm l : Py.sorted_by_len_reverse l ≡ₚ l.
Proof.
  induction l as [|x l IH]; [done|]. simpl.
  by rewrite insert_by_len_perm, IH.
Qed.

Lemma insert_by_len_hd x y l :
  longer_first y x → HdRel longer_first y l →
  HdRel longer_first y (Py.insert_by_len x l).
Proof.
  intros Hyx Hl. destruct l as [|z l]; simpl; [by constructor|].
  destruct (Py.len z <=? Py.len x)%nat; constructor; [done|].
  by inversion Hl.
Qed.

Lemma insert_by_len_sorted x l :
  Sorted longer_first l → Sorted longer_first (Py.insert_by_len x l).
Proof.
  induction 1 as [|y l Hs IH Hh]; simpl; [by repeat constructor|].
  destruct (Py.len y <=? Py.len x)%nat eqn:Hle.
  - apply Nat.leb_le in Hle. repeat constructor; done.
  - apply Nat.leb_gt in Hle. constructor; [done|].
    apply insert_by_len_hd; [|done]. unfold longer_first. lia.
Qed.

Lemma sorted_by_len_reverse_sorted l :
  Sorted (λ x y, (Py.len y ≤ Py.len x)%nat) (Py.sorted_by_len_reverse l).
Proof.
  induction l as [|x l IH]; simpl; [constructor|].
  by apply insert_by_len_sorted.
Qed.

Lemma sorted_by_len_reverse_elem l x :
  x ∈ Py.sorted_by_len_reverse l ↔ x ∈ l.
Proof. by rewrite sorted_by_len_reverse_perm. Qed.

Lemma sorted_by_len_reverse_NoDup l :
  NoDup l → NoDup (Py.sorted_by_len_reverse l).
Proof. by rewrite sorted_by_len_reverse_perm. Qed.

End SortFacts.

(** ** Matched keywords and lexical similarity *)

Section KeywordFacts.

Import TextProcessor.
Local Open Scope Q_scope.

Variable stop_words : gset string.

(** The set of words of a text after [preprocess] with stop-word
    removal. *)
Local Abbreviation words_of text :=
  (list_to_set (Py.split (preprocess stop_words text true)) : gset string).

(** X3. The keywords matched between two answers are exactly the words
    of more than two characters that both preprocessed answers have;
    none is a stop word, none is repeated, and they come longest
    first. *)
Theorem extract_keywords_matched user_answer correct_answer :
  let keywords := extract_keywords stop_words user_answer correct_answer in
  (∀ w, w ∈ keywords ↔
        (2 < Py.len w)%nat
        ∧ w ∈ Py.split (preprocess stop_words user_answer true)
        ∧ w ∈ Py.split (preprocess stop_words correct_answer true))
  ∧ Forall (λ w, w ∉ stop_words) keywords
  ∧ NoDup keywords
  ∧ Sorted (λ x y, (Py.len y ≤ Py.len x)%nat) keywords.
Proof.
  unfold extract_keywords. cbv zeta.
  assert (∀ w,
            w ∈ Py.sorted_by_len_reverse
                  (List.filter (λ word, (2 <? Py.len word)%nat)
                     (elements (words_of user_answer
                                ∩ words_of correct_answer))) ↔
            (2 < Py.len w)%nat
            ∧ w ∈ Py.split (preprocess stop_words user_answer true)
            ∧ w ∈ Py.split (preprocess stop_words correct_answer true))
    as Hin.
  { intros w. rewrite sorted_by_len_reverse_elem, list_elem_of_In, filter_In.
    rewrite <- list_elem_of_In, elem_of_elements, elem_of_intersection.
    rewrite !elem_of_list_to_set, Nat.ltb_lt. tauto. }
  split; [exact Hin|]. split; [|split].
  - apply Forall_forall. intros w (_ & Hw & _)%Hin.
    pose proof (proj2 (preprocess_removes_stop_words
                         stop_words user_answer)) as Hall.
    rewrite Forall_forall in Hall. by apply Hall.
  - apply sorted_by_len_reverse_NoDup, NoDup_ListNoDup, List.NoDup_filter.
    apply NoDup_ListNoDup, NoDup_elements.
  - apply sorted_by_len_reverse_sorted.
Qed.

(** X4. Matching is symmetric: swapping the two answers gives the same
    keywords, up to the order among words of equal length. *)
Theorem extract_keywords_symmetric user_answer correct_answer :
  extract_keywords stop_words user_answer correct_answer
  ≡ₚ extract_keywords stop_words correct_answer user_answer.
Proof.
  destruct (extract_keywords_matched user_answer correct_answer)
    as (Hin & _ & Hnd & _).
  destruct (extract_keywords_matched correct_answer user_answer)
    as (Hin' & _ & Hnd' & _).
  apply NoDup_Permutation; [done..|].
  intros w. rewrite Hin, Hin'. tauto.
Qed.

Lemma similarity_cases text1 text2 :
  (size (words_of text1) = 0%nat ∨ size (words_of text2) = 0%nat)
  ∧ calculate_text_similarity stop_words text1 text2 = 0
  ∨ (0 < size (words_of text1))%nat ∧ (0 < size (words_of text2))%nat
    ∧ calculate_text_similarity stop_words text1 text2
      = Qnat (size (words_of text1 ∩ words_of text2))
        / Qnat (size (words_of text1 ∪ words_of text2)).
Proof.
  unfold calculate_text_similarity.
  destruct (Py.truthy text1) eqn:H1; simpl negb; simpl orb; cbv iota.
  2:{ left. split; [left|done]. by destruct text1. }
  destruct (Py.truthy text2) eqn:H2; simpl negb; cbv iota.
  2:{ left. split; [right|done]. by destruct text2. }
  cbv zeta.
  destruct (size (words_of text1) =? 0)%nat eqn:Hz1; simpl orb; cbv iota.
  { left. apply Nat.eqb_eq in Hz1. auto. }
  destruct (size (words_of text2) =? 0)%nat eqn:Hz2; cbv iota.
  { left. apply Nat.eqb_eq in Hz2. auto. }
  apply Nat.eqb_neq in Hz1, Hz2. right.
  split; [lia|]. split; [lia|].
  assert (0 < size (words_of text1 ∪ words_of text2))%nat as Hu.
  { pose proof (subseteq_size (words_of text1)
                  (words_of text1 ∪ words_of text2)
                  (union_subseteq_l _ _)). lia. }
  apply Nat.ltb_lt in Hu. by rewrite Hu.
Qed.

(** X5. The lexical similarity of two texts lies between 0 and 1, and
    it is 0 exactly when the texts share no word once preprocessed with
    stop-word removal. *)
Theorem text_similarity_range text1 text2 :
  0 <= calculate_text_similarity stop_words text1 text2 <= 1
  ∧ (calculate_text_similarity stop_words text1 text2 == 0 ↔
     words_of text1 ∩ words_of text2 = ∅).
Proof.
  destruct (similarity_cases text1 text2)
    as [[Hz ->] | (H1 & H2 & ->)].
  - split; [lra|]. split; [intros _|done].
    apply set_eq. intros w. rewrite elem_of_intersection.
    split; [|by intros ?%not_elem_of_empty].
    intros [Hw1 Hw2].
    destruct Hz as [Hz | Hz]; apply size_empty_iff, leibniz_equiv in Hz.
    * rewrite Hz in Hw1. by apply not_elem_of_empty in Hw1.
    * rewrite Hz in Hw2. by apply not_elem_of_empty in Hw2.
  - set (I := words_of text1 ∩ words_of text2).
    set (U := words_of text1 ∪ words_of text2).
    assert (size I ≤ size U)%nat as HIU.
    { apply subseteq_size. subst I U.
      intros w [Hw _]%elem_of_intersection. by apply elem_of_union_l. }
    assert (0 < size U)%nat as HU.
    { pose proof (subseteq_size (words_of text1) U (union_subseteq_l _ _)).
      lia. }
    split; [split; [by apply ratio_nonneg | by apply ratio_le_1]|].
    split.
    + intros Hq. apply leibniz_equiv, size_empty_iff.
      assert (Qnat (size I) == 0) as H0.
      { apply Qnat_pos in HU.
        assert (Qnat (size I) == Qnat (size I) / Qnat (size U) * Qnat (size U))
          as -> by (field; lra).
        rewrite Hq. ring. }
      unfold Qnat, Qeq in H0. simpl in H0. lia.
    + fold I. intros ->. rewrite size_empty. unfold Qnat at 1. simpl.
      unfold Qdiv. ring.
Qed.

(** X6. The lexical similarity is symmetric. *)
Theorem text_similarity_symmetric text1 text2 :
  calculate_text_similarity stop_words text1 text2
  = calculate_text_similarity stop_words text2 text1.
Proof.
  destruct (similarity_cases text1 text2) as [[Hz ->] | (H1 & H2 & ->)];
    destruct (similarity_cases text2 text1) as [[Hz' ->] | (H1' & H2' & ->)];
    try done; try lia.
  by rewrite (comm_L (∩) (words_of text1)), (comm_L (∪) (words_of text1)).
Qed.

(** X7. A text compared with itself has similarity 1 when preprocessing
    leaves at least one word of it, and 0 when it leaves none. *)
Theorem text_similarity_self text :
  calculate_text_similarity stop_words text text
  == match Py.split (preprocess stop_words text true) with
     | [] => 0
     | _ :: _ => 1
     end.
Proof.
  destruct (similarity_cases text text) as [[Hz ->] | (H1 & _ & ->)].
  - assert (size (words_of text) = 0%nat) as Hs by tauto.
    apply size_empty_iff in Hs.
    destruct (Py.split (preprocess stop_words text true)) as [|w ws];
      [done|].
    assert (w ∈ (∅ : gset string)) as Hw
      by (rewrite <- Hs; apply elem_of_list_to_set; by left).
    by apply not_elem_of_empty in Hw.
  - rewrite (idemp_L (∩) (words_of text)), (idemp_L (∪) (words_of text)).
    destruct (Py.split (preprocess stop_words text true)) as [|w ws] eqn:Hw.
    + rewrite list_to_set_nil, size_empty in H1. lia.
    + apply Qnat_pos in H1. field. lra.
Qed.

End KeywordFacts.

(** ** Suggestions *)

Section SuggestionFacts.

Import TextProcessor.
Local Open Scope Q_scope.

Lemma unique_fold_NoDup l :
  ∀ acc, NoDup acc → NoDup (fold_left unique_step l acc).
Proof.
  induction l as [|x l IH]; intros acc Hacc; [done|]. simpl.
  apply IH. unfold unique_step. case_bool_decide as Hx; [done|].
  apply NoDup_app. split; [done|]. split; [|apply NoDup_singleton].
  by intros y Hy ->%list_elem_of_singleton.
Qed.

Lemma unique_fold_id l :
  ∀ acc, NoDup (acc ++ l) → fold_left unique_step l acc = acc ++ l.
Proof.
  induction l as [|x l IH]; intros acc Hnd; [by rewrite app_nil_r|].
  simpl. unfold unique_step. case_bool_decide as Hx.
  - apply NoDup_app in Hnd as (_ & Hnd & _).
    destruct (Hnd x Hx). by left.
  - rewrite IH; rewrite <- app_assoc; done.
Qed.

(** The sentence that names missing concepts differs from the fixed
    sentences, whatever concepts it names. *)
Lemma consider_ne x K :
  String.prefix "Co" K = false →
  "Consider including these concepts: " +:+ x ≠ K.
Proof. intros Hp <-. vm_compute in Hp. discriminate. Qed.

Variable stop_words : gset string.
Variables user_answer correct_answer : string.
Variable score : Q.

Local Abbreviation suggestions :=
  (generate_suggestions stop_words user_answer correct_answer score).

(** For an answer that is not blank the list is the four groups in
    order: nothing is repeated, so nothing is removed, and there are
    never more than five. *)
Lemma suggestions_groups :
  Spec.blank user_answer = false →
  ∃ about_length about_keywords about_score about_grammar,
    suggestions
    = about_length ++ about_keywords ++ about_score ++ about_grammar
    ∧ NoDup (about_length ++ about_keywords ++ about_score ++ about_grammar)
    ∧ (about_length = []
       ∨ about_length = ["Provide more detailed explanation with examples."]
       ∨ about_length = ["Try to be more concise while keeping key points."])
    ∧ (about_keywords = []
       ∨ ∃ x, about_keywords
              = ["Consider including these concepts: " +:+ x])
    ∧ about_score
      = (if Qltb score (3#10) then
           ["Review the fundamental concepts of this topic.";
            "Make sure you understand what the question is asking."]
         else if Qltb score (6#10) then
           ["You have the basic idea, but add more specific details.";
            "Include examples or explanations to support your points."]
         else if Qltb score (8#10) then
           ["Good understanding! Add a bit more depth to your explanation."]
         else [])
    ∧ about_grammar
      = (if _has_grammar_issues user_answer
         then ["Check your grammar and sentence structure."] else []).
Proof.
  intros Hb. unfold generate_suggestions.
  rewrite truthy_strip, Hb. simpl negb. cbv iota zeta.
  set (c1 := Qltb (Qnat (Py.len user_answer)) _).
  set (c2 := Qltb _ (Qnat (Py.len user_answer))).
  set (c3 := (0 <? size _)%nat).
  set (imp := take 3 _).
  set (g := _has_grammar_issues user_answer).
  set (s3 := Qltb score (3#10)).
  set (s6 := Qltb score (6#10)).
  set (s8 := Qltb score (8#10)).
  set (x := Py.join ", " imp).
  exists (if c1 then ["Provide more detailed explanation with examples."]
          else if c2 then ["Try to be more concise while keeping key points."]
          else []),
         (if c3 then match imp with
                     | _ :: _ => ["Consider including these concepts: " +:+ x]
                     | [] => []
                     end
          else []),
         (if s3 then
            ["Review the fundamental concepts of this topic.";
             "Make sure you understand what the question is asking."]
          else if s6 then
            ["You have the basic idea, but add more specific details.";
             "Include examples or explanations to support your points."]
          else if s8 then
            ["Good understanding! Add a bit more depth to your explanation."]
          else []),
         (if g then ["Check your grammar and sentence structure."] else []).
  assert (NoDup
            ["Provide more detailed explanation with examples.";
             "Try to be more concise while keeping key points.";
             "Consider including these concepts: " +:+ x;
             "Review the fundamental concepts of this topic.";
             "Make sure you understand what the question is asking.";
             "You have the basic idea, but add more specific details.";
             "Include examples or explanations to support your points.";
             "Good understanding! Add a bit more depth to your explanation.";
             "Check your grammar and sentence structure."]) as Hall.
  { repeat (apply NoDup_cons; split;
            [rewrite ?elem_of_cons, elem_of_nil;
             intuition first
               [ discriminate
               | eapply consider_ne; [|eassumption]; reflexivity
               | eapply consider_ne; [|symmetry; eassumption]; reflexivity ]
            |]).
    apply NoDup_nil_2. }
  match goal with
  | |- ?l = ?r ∧ NoDup ?r ∧ _ =>
      assert (NoDup r) as Hnd;
      [ eapply sublist_NoDup; [exact Hall|];
        destruct c1; [|destruct c2]; (destruct c3; [destruct imp|]);
        (destruct s3; [|destruct s6; [|destruct s8]]); destruct g; simpl;
        repeat first [ apply sublist_nil_l
                     | apply sublist_skip
                     | apply sublist_cons ]
      | ]
  end.
  split; [|split; [exact Hnd|split; [|split; [|split; reflexivity]]]].
  - match goal with
    | |- take 5 (fold_left unique_step ?raw []) = ?r =>
        assert (raw = r) as ->
    end.
    { destruct c1; [|destruct c2]; (destruct c3; [destruct imp|]);
        (destruct s3; [|destruct s6; [|destruct s8]]); destruct g;
        reflexivity. }
    rewrite unique_fold_id by exact Hnd. simpl app. apply take_ge.
    destruct c1; [|destruct c2]; (destruct c3; [destruct imp|]);
      (destruct s3; [|destruct s6; [|destruct s8]]); destruct g;
      simpl; lia.
  - destruct c1; [|destruct c2]; auto.
  - destruct c3; [destruct imp|]; eauto.
Qed.

(** Membership of a fixed sentence, other than the two about length and
    the one about concepts, is decided by the score and grammar groups. *)
Lemma suggestions_member K :
  Spec.blank user_answer = false →
  String.prefix "Co" K = false →
  K ≠ "Provide more detailed explanation with examples." →
  K ≠ "Try to be more concise while keeping key points." →
  K ∈ suggestions ↔
  K ∈ (if Qltb score (3#10) then
         ["Review the fundamental concepts of this topic.";
          "Make sure you understand what the question is asking."]
       else if Qltb score (6#10) then
         ["You have the basic idea, but add more specific details.";
          "Include examples or explanations to support your points."]
       else if Qltb score (8#10) then
         ["Good understanding! Add a bit more depth to your explanation."]
       else [])
  ∨ K ∈ (if _has_grammar_issues user_answer
         then ["Check your grammar and sentence structure."] else []).
Proof.
  intros Hb Hco H1 H2.
  destruct (suggestions_groups Hb)
    as (L & M & S & G & -> & _ & HL & HM & <- & <-).
  rewrite !elem_of_app.
  assert (K ∉ L) as HKL.
  { destruct HL as [-> | [-> | ->]];
      rewrite ?elem_of_cons, elem_of_nil; tauto. }
  assert (K ∉ M) as HKM.
  { destruct HM as [-> | [x ->]];
      rewrite ?elem_of_cons, elem_of_nil; [tauto|].
    intros [Heq | []]. by apply (consider_ne x K). }
  tauto.
Qed.

(** X8. For a blank answer the only suggestion is to provide an
    answer. *)
Theorem suggestions_for_blank_answer :
  Spec.blank user_answer = true →
  suggestions = ["Provide a complete answer to the question."].
Proof.
  intros Hb. unfold generate_suggestions.
  by rewrite truthy_strip, Hb.
Qed.

(** X9. There are never more than five suggestions and none is
    repeated. *)
Theorem suggestions_capped_and_distinct :
  (length (generate_suggestions stop_words user_answer correct_answer score)
   ≤ 5)%nat
  ∧ NoDup (generate_suggestions stop_words user_answer correct_answer score).
Proof.
  unfold generate_suggestions.
  destruct (negb (Py.truthy (Py.strip user_answer))).
  - split; [simpl; lia | apply NoDup_singleton].
  - cbv zeta. split; [rewrite length_take; lia|].
    eapply sublist_NoDup; [|apply sublist_take].
    apply unique_fold_NoDup, NoDup_nil_2.
Qed.

(** X10. For an answer that is not blank, the grammar suggestion is
    given exactly when [_has_grammar_issues] holds of the answer: the
    cap of five never cuts it off. *)
Theorem suggestions_grammar_iff :
  Spec.blank user_answer = false →
  "Check your grammar and sentence structure." ∈ suggestions
  ↔ _has_grammar_issues user_answer = true.
Proof.
  intros Hb. rewrite suggestions_member by done.
  destruct (Qltb score (3#10)); [|destruct (Qltb score (6#10));
                                   [|destruct (Qltb score (8#10))]];
    destruct (_has_grammar_issues user_answer);
    rewrite ?elem_of_cons, ?elem_of_nil;
    intuition discriminate.
Qed.

(** X11. For an answer that is not blank, the score alone decides the
    score suggestions: the two "review" sentences below 0.3, the two
    "add details" sentences from 0.3 up to 0.6, the "good
    understanding" sentence from 0.6 up to 0.8, none from 0.8. *)
Theorem suggestions_follow_score :
  Spec.blank user_answer = false →
  ("Review the fundamental concepts of this topic." ∈ suggestions
   ↔ score < 3#10)
  ∧ ("Make sure you understand what the question is asking." ∈ suggestions
     ↔ score < 3#10)
  ∧ ("You have the basic idea, but add more specific details." ∈ suggestions
     ↔ 3#10 <= score ∧ score < 6#10)
  ∧ ("Include examples or explanations to support your points."
       ∈ suggestions
     ↔ 3#10 <= score ∧ score < 6#10)
  ∧ ("Good understanding! Add a bit more depth to your explanation."
       ∈ suggestions
     ↔ 6#10 <= score ∧ score < 8#10).
Proof.
  intros Hb.
  assert (∀ K, String.prefix "Co" K = false →
               K ≠ "Provide more detailed explanation with examples." →
               K ≠ "Try to be more concise while keeping key points." →
               K ≠ "Check your grammar and sentence structure." →
               K ∈ suggestions ↔
               K ∈ (if Qltb score (3#10) then
                      ["Review the fundamental concepts of this topic.";
                       "Make sure you understand what the question is asking."]
                    else if Qltb score (6#10) then
                      ["You have the basic idea, but add more specific details.";
                       "Include examples or explanations to support your points."]
                    else if Qltb score (8#10) then
                      ["Good understanding! Add a bit more depth to your explanation."]
                    else [])) as Hin.
  { intros K Hco H1 H2 H3. rewrite (suggestions_member K Hb Hco H1 H2).
    destruct (_has_grammar_issues user_answer);
      rewrite ?elem_of_cons, ?elem_of_nil; tauto. }
  rewrite !Hin by done. clear Hin.
  destruct (Qltb score (3#10)) eqn:H3;
    [apply Qltb_lt in H3
    |apply Qltb_ge in H3; destruct (Qltb score (6#10)) eqn:H6;
     [apply Qltb_lt in H6
     |apply Qltb_ge in H6; destruct (Qltb score (8#10)) eqn:H8;
      [apply Qltb_lt in H8 | apply Qltb_ge in H8]]];
    rewrite ?elem_of_cons, ?elem_of_nil;
    repeat match goal with |- _ ∧ _ => split end;
    (split;
     [ intros H; first [ lra | split; lra | exfalso; intuition discriminate ]
     | intros H; first [ by left | by (right; left) | exfalso; lra ] ]).
Qed.

End SuggestionFacts.

(** ** The analysis and the two scores *)

Section EvaluatorFacts.

Local Open Scope Q_scope.

Lemma Qmin_of_le x y : x <= y → Qmin x y = x.
Proof.
  intros H. unfold Qmin, GenericMinMax.gmin.
  by destruct (x ?= y) eqn:Hc.
Qed.

Lemma Qmin_mono x y z : x <= y → Qmin x z <= Qmin y z.
Proof.
  intros H. apply Q.min_glb; [|apply Q.le_min_r].
  apply Qle_trans with x; [apply Q.le_min_l | done].
Qed.

Lemma Qmax_mono x y z : x <= y → Qmax x z <= Qmax y z.
Proof.
  intros H. apply Q.max_lub; [|apply Q.le_max_r].
  apply Qle_trans with y; [done | apply Q.le_max_l].
Qed.

Variables question correct_answer user_answer : string.


(** X13. A higher semantic similarity never gives a lower score, with
    the analysis and the criteria unchanged. *)
Theorem final_score_monotone (c c' : Q) (a : Analysis)
    (criteria : option (list string)) :
  c <= c' →
  _calculate_final_score c a criteria <= _calculate_final_score c' a criteria.
Proof.
  intros H. unfold _calculate_final_score. cbv zeta.
  apply Qmin_mono.
  destruct (Qltb _ (3#10)); [|destruct (Qltb 3 _)]; nra.
Qed.

(** X14. [_calculate_confidence] stays between 10 and 95, and at most 85
    without a usable model, whatever the similarity, the analysis and
    the answer length. *)
Theorem calculate_confidence_range
    (TRANSFORMERS_AVAILABLE : bool) (self : t) (c : Q) (a : Analysis)
    (answer_length : nat) :
  10 <= _calculate_confidence TRANSFORMERS_AVAILABLE self c a answer_length
     <= (if TRANSFORMERS_AVAILABLE && has_model self then 95 else 85).
Proof.
  unfold _calculate_confidence. cbv zeta.
  split; [apply Q.le_max_r|].
  apply Q.max_lub.
  - destruct (TRANSFORMERS_AVAILABLE && has_model self); apply Q.le_min_r.
  - destruct (TRANSFORMERS_AVAILABLE && has_model self); lra.
Qed.

(** X15. A higher semantic similarity never gives a lower confidence,
    with everything else unchanged. *)
Theorem calculate_confidence_monotone
    (TRANSFORMERS_AVAILABLE : bool) (self : t) (c c' : Q) (a : Analysis)
    (answer_length : nat) :
  c <= c' →
  _calculate_confidence TRANSFORMERS_AVAILABLE self c a answer_length
  <= _calculate_confidence TRANSFORMERS_AVAILABLE self c' a answer_length.
Proof.
  intros H. unfold _calculate_confidence. cbv zeta.
  apply Qmax_mono.
  destruct (TRANSFORMERS_AVAILABLE && has_model self); apply Qmin_mono;
    (destruct (answer_length <? 10)%nat;
     [|destruct (1000 <? answer_length)%nat]); nra.
Qed.

Variable max_marks : Z.
Variable criteria : option (list string).

Local Abbreviation fb :=
  (_evaluate_fallback question correct_answer user_answer max_marks criteria).

(** X16. On the fallback path neither cap ever applies: the score is
    the similarity itself and the confidence is 80 times the score. *)
Theorem fallback_caps_never_apply :
  let r := _evaluate_fallback
             question correct_answer user_answer max_marks criteria in
  score r = semantic_similarity r
  ∧ confidence r = score r * 80.
Proof.
  cbv zeta.
  pose proof (fallback_similarity_bounds
                question correct_answer user_answer max_marks criteria)
    as [H0 H1].
  assert (score fb = semantic_similarity fb) as Hs.
  { rewrite fallback_score_eq. by apply Qmin_of_le. }
  split; [done|]. rewrite fallback_confidence_eq.
  apply Qmin_of_le. rewrite Hs. lra.
Qed.

End EvaluatorFacts.

(** ** Whole evaluations, batches and loading *)

Section EngineFacts.

Local Open Scope Q_scope.

(** X18. The fallback evaluation of an answer identical to the
    reference: the score is 1, the confidence 80 and the feedback the
    excellent sentence when the answer has a word that is not a stop
    word, and the score is only 0.3 when all its words are stop
    words. *)
Theorem fallback_identical_answer
    (question answer : string) (max_marks : Z)
    (criteria : option (list string)) :
  Spec.blank answer = false →
  let r := _evaluate_fallback question answer answer max_marks criteria in
  match size (Spec.tokenSet answer) with
  | O => score r == 3#10
  | S _ => score r == 1 ∧ confidence r == 80
           ∧ feedback r = Spec.excellent_fallback
  end.
Proof.
  intros Hb r.
  assert (0 < Py.len answer)%nat as Hlen.
  { destruct answer; [discriminate | simpl; lia]. }
  assert (semantic_similarity r
          == match size (Spec.tokenSet answer) with
             | O => 3#10
             | S _ => 1
             end) as Hss.
  { subst r. rewrite fallback_similarity_spec.
    unfold Spec.fallbackSimilarity, Spec.wordOverlapRatio.
    rewrite Nat.max_l by lia.
    assert (Qmin (Qnat (Py.len answer) / Qnat (Py.len answer)) 1 == 1) as ->.
    { apply Qnat_pos in Hlen. rewrite Q.min_l; [field; lra|].
      apply Qle_shift_div_r; lra. }
    rewrite (idemp_L (∩) (Spec.tokenSet answer)).
    destruct (size (Spec.tokenSet answer)) eqn:Hsz; [ring|].
    assert (0 < Qnat (S n)) by (apply Qnat_pos; lia). field. lra. }
  destruct (fallback_caps_never_apply question answer answer
              max_marks criteria) as [Hs Hc].
  fold r in Hs, Hc.
  destruct (size (Spec.tokenSet answer)); [by rewrite Hs|].
  split; [by rewrite Hs|]. split; [rewrite Hc, Hs, Hss; ring|].
  apply fallback_feedback_excellent. fold r. rewrite Hs, Hss. lra.
Qed.

(** The result of [evaluate] does not depend on the question, on the
    maximum marks or on the criteria. *)
Remark evaluate_ignores_question_marks_criteria
    (TRANSFORMERS_AVAILABLE : bool) (faults : Method → option exn) (self : t)
    (correct_answer user_answer : string)
    (question question' : string) (max_marks max_marks' : Z)
    (criteria criteria' : option (list string)) :
  evaluate TRANSFORMERS_AVAILABLE faults self
    question correct_answer user_answer max_marks criteria
  = evaluate TRANSFORMERS_AVAILABLE faults self
      question' correct_answer user_answer max_marks' criteria'.
Proof. reflexivity. Qed.

Variable TRANSFORMERS_AVAILABLE : bool.
Variable faults : Method → option exn.
Variable self : t.

(** One entry of a batch evaluated to [r]: its three texts are there
    and [evaluate] returns [r] for them. *)
Let evaluates_to (item : EvalItem) (r : Evaluation) : Prop :=
  ∃ question correct_answer user_answer,
    item_question item = Some question
    ∧ item_correct_answer item = Some correct_answer
    ∧ item_user_answer item = Some user_answer
    ∧ evaluate TRANSFORMERS_AVAILABLE faults self
        question correct_answer user_answer
        (default 5%Z (item_max_marks item)) (item_criteria item)
      = Return r.

Lemma batch_loop_spec evaluations :
  ∀ acc rs,
    batch_loop TRANSFORMERS_AVAILABLE faults self evaluations acc = Return rs
    ↔ ∃ rs', rs = acc ++ rs' ∧ Forall2 evaluates_to evaluations rs'.
Proof.
  induction evaluations as [|item items IH]; intros acc rs; simpl.
  - split.
    + intros [= <-]. exists []. by rewrite app_nil_r.
    + intros (rs' & -> & ->%Forall2_nil_inv_l). by rewrite app_nil_r.
  - unfold getitem, mbind, result_bind.
    destruct (item_question item) as [q|] eqn:Hq.
    2:{ split; [done|]. intros (rs' & _ & H). inversion H as [|? r ? ? He].
        destruct He as (? & ? & ? & ? & _). congruence. }
    destruct (item_correct_answer item) as [ca|] eqn:Hca.
    2:{ split; [done|]. intros (rs' & _ & H). inversion H as [|? r ? ? He].
        destruct He as (? & ? & ? & ? & ? & _). congruence. }
    destruct (item_user_answer item) as [ua|] eqn:Hua.
    2:{ split; [done|]. intros (rs' & _ & H). inversion H as [|? r ? ? He].
        destruct He as (? & ? & ? & ? & ? & ? & _). congruence. }
    destruct (evaluate _ _ _ q ca ua _ _) as [r|e] eqn:Hev.
    2:{ split; [done|]. intros (rs' & _ & H). inversion H as [|? r ? ? He].
        destruct He as (? & ? & ? & ? & ? & ? & ?). congruence. }
    rewrite IH. split.
    + intros (rs' & -> & Hrs'). exists (r :: rs').
      rewrite <- app_assoc. split; [done|]. constructor; [|done].
      by exists q, ca, ua.
    + intros (rs' & -> & H). inversion H as [|? r' ? rs'' He Hrest]; subst.
      destruct He as (q' & ca' & ua' & ? & ? & ? & Hev').
      assert (r' = r) as -> by congruence.
      exists rs''. by rewrite <- app_assoc.
Qed.

(** X19. [batch_evaluate] returns a list exactly when every entry has
    its three texts and evaluates; the list then has one result per
    entry, in order, each the result of [evaluate] on that entry alone
    (with 5 marks when the entry gives none). *)
Theorem batch_evaluate_pointwise evaluations rs :
  batch_evaluate TRANSFORMERS_AVAILABLE faults self evaluations = Return rs
  ↔ Forall2
      (λ item r,
         ∃ question correct_answer user_answer,
           item_question item = Some question
           ∧ item_correct_answer item = Some correct_answer
           ∧ item_user_answer item = Some user_answer
           ∧ evaluate TRANSFORMERS_AVAILABLE faults self
               question correct_answer user_answer
               (default 5%Z (item_max_marks item)) (item_criteria item)
             = Return r)
      evaluations rs.
Proof.
  unfold batch_evaluate. rewrite batch_loop_spec. simpl. split.
  - by intros (rs' & -> & H).
  - intros H. by exists rs.
Qed.

(** X20. On an evaluator that is not loaded an empty batch still
    returns the empty list, while a batch whose first entry has its
    three texts raises the [RuntimeError] of [evaluate]. *)
Theorem batch_evaluate_not_loaded item evaluations
    question correct_answer user_answer :
  _loaded self = false →
  item_question item = Some question →
  item_correct_answer item = Some correct_answer →
  item_user_answer item = Some user_answer →
  batch_evaluate TRANSFORMERS_AVAILABLE faults self [] = Return []
  ∧ batch_evaluate TRANSFORMERS_AVAILABLE faults self (item :: evaluations)
    = Raise Spec.not_loaded.
Proof.
  intros Hl Hq Hca Hua. split; [done|].
  unfold batch_evaluate. simpl. rewrite Hq, Hca, Hua. simpl.
  unfold evaluate. by rewrite Hl.
Qed.

Variable SentenceTransformer : result Model.
Variable test_encode : Model → result unit.

(** X21. [reload_model] forgets the evaluator it is given: the result
    is loaded, and it has a model exactly when the library is there
    and the constructor returned one, also when the test encoding
    raised. *)
Theorem reload_model_result :
  reload_model TRANSFORMERS_AVAILABLE SentenceTransformer test_encode self
  = {| model :=
         if TRANSFORMERS_AVAILABLE then
           match SentenceTransformer with
           | Return m => Some m
           | Raise _ => None
           end
         else None;
       _loaded := true |}.
Proof.
  unfold reload_model, load_model, load_model_try. simpl.
  destruct TRANSFORMERS_AVAILABLE; simpl; [|done].
  destruct SentenceTransformer as [m|e]; [|done].
  by destruct (test_encode m).
Qed.

(** X22. Loading a second time changes nothing, the library behaving
    the same. *)
Theorem load_model_idempotent :
  load_model TRANSFORMERS_AVAILABLE SentenceTransformer test_encode
    (load_model TRANSFORMERS_AVAILABLE SentenceTransformer test_encode self)
  = load_model TRANSFORMERS_AVAILABLE SentenceTransformer test_encode self.
Proof.
  unfold load_model, load_model_try.
  destruct TRANSFORMERS_AVAILABLE; simpl; [|done].
  destruct SentenceTransformer as [m|e]; [|done].
  by destruct (test_encode m).
Qed.

End EngineFacts.

(** X23. When the model cannot be built, an evaluator loaded from
    scratch grades every answer that is not blank by the fallback
    evaluation. *)
Theorem failed_load_grades_by_fallback
    (TRANSFORMERS_AVAILABLE : bool) (test_encode : Model → result unit)
    (e : exn) (question correct_answer user_answer : string)
    (max_marks : Z) (criteria : option (list string)) :
  Spec.blank user_answer = false →
  evaluate TRANSFORMERS_AVAILABLE no_faults
    (load_model TRANSFORMERS_AVAILABLE (Raise e) test_encode __init__)
    question correct_answer user_answer max_marks criteria
  = Return (_evaluate_fallback
              question correct_answer user_answer max_marks criteria).
Proof.
  intros Hb.
  assert (load_model TRANSFORMERS_AVAILABLE (Raise e) test_encode __init__
          = {| model := None; _loaded := true |}) as ->.
  { unfold load_model, load_model_try. by destruct TRANSFORMERS_AVAILABLE. }
  rewrite evaluate_without_model; auto.
Qed.

(** ** The two evaluation coroutines, given their dependencies

    The statements of this section are about the bodies of
    [evaluate_answer] and [batch_evaluate_answers] called with an
    evaluator and a text processor object, as a test of the functions
    would call them. What the application itself passes to them is the
    subject of the next section. *)

Section ServiceFacts.

Local Open Scope Q_scope.

(** Characters that are not part of any word: white space, the
    punctuation that [preprocess] turns into spaces and the characters
    it deletes. *)
Let noise (c : ascii) : bool :=
  Py.isspace c || TextProcessor.is_basic_punct c || TextProcessor.is_special c.

Lemma noise_lower_char c : noise c = true → noise (Py.lower_char c) = true.
Proof. destruct c as [[] [] [] [] [] [] [] []]; vm_compute; auto. Qed.

Lemma noise_lower s :
  Py.any (λ c, negb (noise c)) s = false →
  Py.any (λ c, negb (noise c)) (Py.lower s) = false.
Proof.
  induction s as [|c s IH]; [done|]. simpl.
  intros [Hc Hs]%orb_false_iff. apply negb_false_iff in Hc.
  by rewrite (noise_lower_char c Hc), IH.
Qed.

(** A text made of such characters only is preprocessed to the empty
    string. *)
Lemma preprocess_noise stop_words s :
  Py.all noise s = true →
  TextProcessor.preprocess stop_words s false = "".
Proof.
  intros Hs. unfold TextProcessor.preprocess.
  destruct (Py.truthy s); simpl negb; cbv iota zeta; [|done].
  apply strip_empty_iff. unfold Spec.blank.
  rewrite all_negb_any in Hs. apply negb_true_iff in Hs.
  rewrite all_negb_any. apply negb_true_iff.
  apply any_sub_runs_within; [done|].
  apply any_delete_chars_within.
  rewrite (any_ext _ (λ c, negb (noise c))).
  2:{ intros c. by destruct c as [[] [] [] [] [] [] [] []]. }
  apply any_strip, any_sub_runs; [done|]. by apply noise_lower.
Qed.

Variable TRANSFORMERS_AVAILABLE : bool.
Variable evaluator : t.
Variable processor : TextProcessor.t.
Variable validation_error : Q → Q → Q → string.

Local Abbreviation stop_words := (TextProcessor.self_stop_words processor).
Local Abbreviation respond_here faults :=
  (Service.respond TRANSFORMERS_AVAILABLE faults evaluator processor
     validation_error).
Local Abbreviation evaluate_answer_here faults :=
  (Service.evaluate_answer TRANSFORMERS_AVAILABLE faults evaluator processor
     validation_error).
Local Abbreviation batch_here faults :=
  (Service.batch_evaluate_answers TRANSFORMERS_AVAILABLE faults evaluator
     processor validation_error).
Local Abbreviation evaluate_request faults request :=
  (evaluate TRANSFORMERS_AVAILABLE faults evaluator
     (TextProcessor.preprocess stop_words (Service.question request) false)
     (TextProcessor.preprocess stop_words
        (Service.correctAnswer request) false)
     (TextProcessor.preprocess stop_words (Service.userAnswer request) false)
     (Service.maxMarks request) (Service.evaluationCriteria request)).

(** The three [Field] bounds of the response model. *)
Let valid (r : Evaluation) : Prop :=
  0 <= score r <= 1 ∧ 0 <= confidence r <= 100
  ∧ 0 <= semantic_similarity r <= 1.

Lemma in_field_iff lo hi x : Service.in_field lo hi x = true ↔ lo <= x <= hi.
Proof.
  unfold Service.in_field. by rewrite andb_true_iff, !Qle_bool_iff.
Qed.

Lemma respond_valid faults request r :
  evaluate_request faults request = Return r → valid r →
  ∃ response,
    respond_here faults request = Return (r, response)
    ∧ Service.score response = score r
    ∧ Service.confidence response = confidence r
    ∧ Service.feedback response = feedback r
    ∧ Service.semanticSimilarity response = semantic_similarity r.
Proof.
  intros Hev (Hs & Hc & Hm). unfold Service.respond. cbv zeta.
  rewrite Hev. unfold mbind, result_bind, Service.EvaluationResponse_new.
  apply in_field_iff in Hs, Hc, Hm. rewrite Hs, Hc, Hm. simpl.
  eexists. split; [reflexivity|]. done.
Qed.

Lemma respond_invalid faults request r :
  evaluate_request faults request = Return r → ¬ valid r →
  respond_here faults request
  = Raise (Exception (validation_error (score r) (confidence r)
                        (semantic_similarity r))).
Proof.
  intros Hev Hv. unfold Service.respond. cbv zeta.
  rewrite Hev. unfold mbind, result_bind, Service.EvaluationResponse_new.
  destruct (Service.in_field 0 1 (score r)) eqn:Hs;
    destruct (Service.in_field 0 100 (confidence r)) eqn:Hc;
    destruct (Service.in_field 0 1 (semantic_similarity r)) eqn:Hm;
    try done.
  destruct Hv. unfold valid. by rewrite <- !in_field_iff.
Qed.

Lemma respond_returns faults request r response :
  respond_here faults request = Return (r, response) →
  evaluate_request faults request = Return r ∧ valid r
  ∧ Service.score response = score r
  ∧ Service.confidence response = confidence r.
Proof.
  unfold Service.respond. cbv zeta.
  destruct (evaluate_request faults request) as [r'|e] eqn:Hev; [|done].
  unfold mbind, result_bind, Service.EvaluationResponse_new.
  destruct (Service.in_field 0 1 (score r')) eqn:Hs;
    destruct (Service.in_field 0 100 (confidence r')) eqn:Hc;
    destruct (Service.in_field 0 1 (semantic_similarity r')) eqn:Hm;
    try done.
  simpl. intros [= <- <-]. apply in_field_iff in Hs, Hc, Hm. done.
Qed.

(** X24. Called with a loaded evaluator and a text processor object,
    the coroutine [evaluate_answer] treats an answer made only of white
    space, punctuation and symbols as no answer at all: score 0,
    confidence 100, similarity 0 and the feedback "No answer provided.",
    whatever the model would do. *)
Theorem evaluate_answer_symbols_only faults request :
  _loaded evaluator = true →
  Py.all (λ c, Py.isspace c || TextProcessor.is_basic_punct c
               || TextProcessor.is_special c)
    (Service.userAnswer request) = true →
  ∃ response,
    evaluate_answer_here faults request = Service.OK response
    ∧ Service.score response = 0
    ∧ Service.confidence response = 100
    ∧ Service.semanticSimilarity response = 0
    ∧ Service.feedback response = "No answer provided.".
Proof.
  intros Hl Hn.
  destruct (respond_valid faults request empty_answer)
    as (response & Hr & Hs & Hc & Hf & Hm).
  - unfold evaluate. rewrite Hl, (preprocess_noise stop_words _ Hn). done.
  - unfold valid. simpl. lra.
  - exists response. unfold Service.evaluate_answer. by rewrite Hr.
Qed.

(** X25. Called with a text processor object and a loaded evaluator
    that has no usable model, the coroutine [evaluate_answer] returns a
    response for every request: the fallback result always passes the
    bounds of the response model. *)
Theorem evaluate_answer_without_model_returns request :
  _loaded evaluator = true →
  TRANSFORMERS_AVAILABLE = false ∨ model evaluator = None →
  ∃ response,
    evaluate_answer_here no_faults request = Service.OK response
    ∧ 0 <= Service.score response <= 1
    ∧ 0 <= Service.confidence response <= 100
    ∧ 0 <= Service.semanticSimilarity response <= 1.
Proof.
  intros Hl Hm.
  set (pu := TextProcessor.preprocess stop_words
               (Service.userAnswer request) false).
  destruct (Spec.blank pu) eqn:Hb.
  - destruct (respond_valid no_faults request empty_answer)
      as (response & Hr & Hs & Hc & _ & Hsim).
    + unfold evaluate. fold pu. by rewrite Hl, truthy_strip, Hb.
    + unfold valid. simpl. lra.
    + exists response. unfold Service.evaluate_answer. rewrite Hr.
      rewrite Hs, Hc, Hsim. simpl. split; [done|]. lra.
  - set (fb := _evaluate_fallback
                 (TextProcessor.preprocess stop_words
                    (Service.question request) false)
                 (TextProcessor.preprocess stop_words
                    (Service.correctAnswer request) false)
                 pu (Service.maxMarks request)
                 (Service.evaluationCriteria request)).
    pose proof (fallback_score_bounds _ _ pu _ _ : 0 <= score fb <= 1).
    pose proof (fallback_confidence_bounds _ _ pu _ _
                : 0 <= confidence fb <= 80).
    pose proof (fallback_similarity_bounds _ _ pu _ _
                : 0 <= semantic_similarity fb <= 1).
    destruct (respond_valid no_faults request fb)
      as (response & Hr & Hs & Hc & _ & Hsim).
    + fold pu. by rewrite evaluate_without_model.
    + unfold valid. repeat split; (tauto || lra).
    + exists response. unfold Service.evaluate_answer. rewrite Hr.
      rewrite Hs, Hc, Hsim. split; [done|]. repeat split; (tauto || lra).
Qed.

(** X26. Called with a text processor object and a loaded evaluator
    whose model answers the cosine similarity [c] for the two
    preprocessed answers, the coroutine [evaluate_answer] returns a
    response exactly when [c] is between 0 and 1; a cosine outside that
    range is refused by the response model and is raised as HTTP 500. *)
Theorem evaluate_answer_needs_cosine_in_range request m c :
  _loaded evaluator = true →
  Spec.blank (TextProcessor.preprocess stop_words
                (Service.userAnswer request) false) = false →
  TRANSFORMERS_AVAILABLE = true →
  model evaluator = Some m →
  m (TextProcessor.preprocess stop_words (Service.correctAnswer request) false)
    (TextProcessor.preprocess stop_words (Service.userAnswer request) false)
  = Return c →
  (0 <= c <= 1 →
   ∃ response,
     evaluate_answer_here no_faults request = Service.OK response
     ∧ Service.semanticSimilarity response = c
     ∧ 0 <= Service.score response <= 1
     ∧ 10 <= Service.confidence response <= 95)
  ∧ (¬ (0 <= c <= 1) →
     ∃ detail,
       evaluate_answer_here no_faults request
       = Service.HTTPException 500 detail).
Proof.
  intros Hl Hb HT Hm Hc.
  assert (Spec.model_answers TRANSFORMERS_AVAILABLE evaluator
            (TextProcessor.preprocess stop_words
               (Service.correctAnswer request) false)
            (TextProcessor.preprocess stop_words
               (Service.userAnswer request) false) c) as Hans
    by (split; [done | by exists m]).
  pose proof (model_path TRANSFORMERS_AVAILABLE evaluator
                (TextProcessor.preprocess stop_words
                   (Service.question request) false)
                _ _ (Service.maxMarks request)
                (Service.evaluationCriteria request) Hl Hb c Hans) as Hev.
  match type of Hev with _ = Return ?r0 => set (r := r0) in * end.
  assert (10 <= confidence r <= 95) as Hconf.
  { subst r. cbn [confidence]. rewrite HT.
    apply confidence_bounds_with_model. unfold has_model. by rewrite Hm. }
  assert (score r <= 1) as Hs1 by apply final_score_le_1.
  split.
  - intros Hrange.
    assert (0 <= score r) as Hs0 by (apply final_score_nonneg; tauto).
    destruct (respond_valid no_faults request r Hev)
      as (response & Hr & Hs & Hcf & _ & Hsim).
    { unfold valid. repeat split; try tauto; try lra. }
    exists response. unfold Service.evaluate_answer. rewrite Hr.
    rewrite Hs, Hcf, Hsim. done.
  - intros Hrange. eexists. unfold Service.evaluate_answer.
    rewrite (respond_invalid no_faults request r Hev); [reflexivity|].
    intros (_ & _ & Hsim). by apply Hrange.
Qed.

(** The accumulator of the batch loop after the requests whose
    evaluations and responses are [pairs]. *)
Let after (acc : list Service.EvaluationResponse * Q * Q)
    (pairs : list (Evaluation * Service.EvaluationResponse))
  : list Service.EvaluationResponse * Q * Q :=
  (acc.1.1 ++ map snd pairs,
   foldl (λ total p, total + score p.1) acc.1.2 pairs,
   foldl (λ total p, total + confidence p.1) acc.2 pairs).

Lemma batch_requests_spec faults evaluations :
  ∀ acc out,
    Service.batch_requests TRANSFORMERS_AVAILABLE faults evaluator processor
      validation_error evaluations acc = Return out
    ↔ ∃ pairs,
        Forall2 (λ request p, respond_here faults request = Return p)
          evaluations pairs
        ∧ out = after acc pairs.
Proof.
  induction evaluations as [|request requests IH];
    intros [[results ts] tc] out; simpl.
  - split.
    + intros [= <-]. exists []. split; [constructor|].
      unfold after. simpl. by rewrite app_nil_r.
    + intros (pairs & ->%Forall2_nil_inv_l & ->).
      unfold after. simpl. by rewrite app_nil_r.
  - unfold mbind, result_bind.
    destruct (respond_here faults request) as [[r response]|e] eqn:Hr.
    + rewrite IH. split.
      * intros (pairs & Hall & ->). exists ((r, response) :: pairs).
        split; [by constructor|]. unfold after. simpl.
        by rewrite <- app_assoc.
      * intros (pairs & Hall & ->).
        inversion Hall as [|? p ? pairs' Hp Hrest]; subst.
        assert (p = (r, response)) as -> by congruence.
        exists pairs'. split; [done|]. unfold after. simpl.
        by rewrite <- app_assoc.
    + split; [done|]. intros (pairs & Hall & _).
      inversion Hall; congruence.
Qed.

Lemma evaluate_answer_ok faults request response :
  evaluate_answer_here faults request = Service.OK response
  ↔ ∃ r, respond_here faults request = Return (r, response).
Proof.
  unfold Service.evaluate_answer.
  destruct (respond_here faults request) as [[r response']|e].
  - split; [intros [= ->]; by exists r | by intros (r' & [= _ ->])].
  - split; [done | by intros (r' & ?)].
Qed.

Lemma batch_ok faults evaluations batch :
  batch_here faults evaluations = Service.OK batch →
  ∃ pairs,
    Forall2 (λ request p, respond_here faults request = Return p)
      evaluations pairs
    ∧ Service.results batch = map snd pairs
    ∧ Service.summary batch
      = Service.summarize (map snd pairs)
          (foldl (λ total p, total + score p.1) 0 pairs)
          (foldl (λ total p, total + confidence p.1) 0 pairs).
Proof.
  unfold Service.batch_evaluate_answers.
  destruct (Service.batch_requests _ _ _ _ _ _ _)
    as [[[results ts] tc]|e] eqn:Hb; [|done].
  apply batch_requests_spec in Hb as (pairs & Hall & Hout).
  unfold after in Hout. simpl in Hout. injection Hout as -> -> ->.
  intros [= <-]. by exists pairs.
Qed.

(** X27. Called with the same evaluator and text processor object, the
    coroutine [batch_evaluate_answers] returns exactly when
    [evaluate_answer] returns for each of the requests, and its results
    are then the single responses, in order; one failing request fails
    the whole batch. *)
Theorem batch_evaluate_answers_all_or_nothing faults evaluations :
  ((∃ batch,
      Service.batch_evaluate_answers TRANSFORMERS_AVAILABLE faults evaluator
        processor validation_error evaluations = Service.OK batch)
   ↔ Forall (λ request,
               ∃ response,
                 Service.evaluate_answer TRANSFORMERS_AVAILABLE faults
                   evaluator processor validation_error request
                 = Service.OK response)
       evaluations)
  ∧ ∀ batch,
      Service.batch_evaluate_answers TRANSFORMERS_AVAILABLE faults evaluator
        processor validation_error evaluations = Service.OK batch →
      Forall2 (λ request response,
                 Service.evaluate_answer TRANSFORMERS_AVAILABLE faults
                   evaluator processor validation_error request
                 = Service.OK response)
        evaluations (Service.results batch).
Proof.
  assert (∀ batch,
            batch_here faults evaluations = Service.OK batch →
            Forall2 (λ request response,
                       evaluate_answer_here faults request
                       = Service.OK response)
              evaluations (Service.results batch)) as Hpoint.
  { intros batch (pairs & Hall & -> & _)%batch_ok.
    apply Forall2_fmap_r. eapply Forall2_impl; [exact Hall|].
    intros request [r response] Hr. simpl. apply evaluate_answer_ok. eauto. }
  split; [|exact Hpoint]. split.
  - intros [batch Hb]. apply Hpoint in Hb.
    set (rs := Service.results batch) in Hb. clearbody rs. clear Hpoint.
    induction Hb as [|request response ? ? Hr _ IH]; [constructor|].
    constructor; [by exists response | done].
  - intros Hall. clear Hpoint.
    assert (∃ pairs,
              Forall2 (λ request p, respond_here faults request = Return p)
                evaluations pairs) as [pairs Hpairs].
    { induction Hall as [|request requests Hx Hl IH]; [by exists []|].
      destruct Hx as [response Hr]. destruct IH as [pairs IH].
      apply evaluate_answer_ok in Hr as [r Hr].
      exists ((r, response) :: pairs). by constructor. }
    unfold Service.batch_evaluate_answers.
    destruct (Service.batch_requests _ _ _ _ _ _ _) as [[[rs ts] tc]|e] eqn:Hb;
      [eauto|].
    assert (Service.batch_requests TRANSFORMERS_AVAILABLE faults evaluator
              processor validation_error evaluations ([], 0, 0)
            = Return (after ([], 0, 0) pairs)) as Hret
      by (apply batch_requests_spec; eauto).
    congruence.
Qed.

Lemma Qle_bool_false x y : Qle_bool x y = false ↔ y < x.
Proof. apply (Qgeb_lt y x). Qed.

(** Every score is in exactly one of the four bands. *)
Lemma band_counts (results : list Service.EvaluationResponse) :
  let d :=
    Service.score_distribution (Service.summarize results 0 0) in
  (Service.excellent d + Service.good d + Service.fair d + Service.poor d
   = length results)%nat.
Proof.
  simpl. induction results as [|r results IH]; [done|]. simpl.
  destruct (Qgeb (Service.score r) (8#10)) eqn:H8;
    [apply Qgeb_ge in H8 | apply Qgeb_lt in H8];
    (destruct (Qle_bool (6#10) (Service.score r)) eqn:H6;
     [apply Qle_bool_iff in H6 | apply Qle_bool_false in H6]);
    (destruct (Qltb (Service.score r) (8#10)) eqn:H8';
     [apply Qltb_lt in H8' | apply Qltb_ge in H8']);
    (destruct (Qle_bool (4#10) (Service.score r)) eqn:H4;
     [apply Qle_bool_iff in H4 | apply Qle_bool_false in H4]);
    (destruct (Qltb (Service.score r) (6#10)) eqn:H6';
     [apply Qltb_lt in H6' | apply Qltb_ge in H6']);
    (destruct (Qltb (Service.score r) (4#10)) eqn:H4';
     [apply Qltb_lt in H4' | apply Qltb_ge in H4']);
    simpl; first [lia | exfalso; lra].
Qed.

Lemma Qnat_succ n : Qnat (S n) == Qnat n + 1.
Proof.
  unfold Qnat. rewrite Nat2Z.inj_succ, <- Z.add_1_r, inject_Z_plus.
  reflexivity.
Qed.

(** The two running totals of the batch loop stay within what the
    bounds of the response model allow. *)
Lemma totals_bounds (pairs : list (Evaluation * Service.EvaluationResponse)) :
  Forall (λ p, valid p.1) pairs →
  ∀ ts tc,
    ts <= foldl (λ total p, total + score p.1) ts pairs
       <= ts + Qnat (length pairs)
    ∧ tc <= foldl (λ total p, total + confidence p.1) tc pairs
         <= tc + 100 * Qnat (length pairs).
Proof.
  induction 1 as [|p pairs (Hs & Hc & _) _ IH]; intros ts tc.
  - simpl. change (Qnat 0) with 0. lra.
  - simpl foldl. simpl length. rewrite Qnat_succ.
    destruct (IH (ts + score p.1) (tc + confidence p.1))
      as [[? ?] [? ?]].
    repeat split; lra.
Qed.

Lemma average_bounds total n hi :
  0 <= hi → 0 <= total <= hi * Qnat (S n) → 0 <= total / Qnat (S n) <= hi.
Proof.
  intros Hhi [H0 H1]. assert (0 < Qnat (S n)) by (apply Qnat_pos; lia).
  split.
  - apply Qle_shift_div_l; [done | lra].
  - apply Qle_shift_div_r; [done | lra].
Qed.

(** X28. When the coroutine [batch_evaluate_answers], called with an
    evaluator and a text processor object, returns, its summary is
    consistent: it counts one evaluation per request, the four bands of
    the score distribution add up to that number, and the two averages
    lie within the bounds of a single response. *)
Theorem batch_evaluate_answers_summary faults evaluations batch :
  Service.batch_evaluate_answers TRANSFORMERS_AVAILABLE faults evaluator
    processor validation_error evaluations = Service.OK batch →
  let s := Service.summary batch in
  let d := Service.score_distribution s in
  Service.total_evaluations s = length evaluations
  ∧ (Service.excellent d + Service.good d + Service.fair d + Service.poor d
     = length evaluations)%nat
  ∧ 0 <= Service.average_score s <= 1
  ∧ 0 <= Service.average_confidence s <= 100.
Proof.
  intros (pairs & Hall & Hres & Hsum)%batch_ok. cbv zeta. rewrite Hsum.
  assert (length pairs = length evaluations) as Hlen
    by (symmetry; eapply Forall2_length; exact Hall).
  assert (Forall (λ p, valid p.1) pairs) as Hvalid.
  { clear Hres Hsum Hlen. induction Hall as [|request [r response] ? ? Hr _ IH];
      constructor; [|done].
    by apply respond_returns in Hr as (_ & Hv & _). }
  destruct (totals_bounds pairs Hvalid 0 0) as [[Hs0 Hs1] [Hc0 Hc1]].
  split; [|split; [|split]].
  - simpl. by rewrite length_map.
  - pose proof (band_counts (map snd pairs)) as Hb. simpl in Hb |- *.
    by rewrite Hb, length_map.
  - cbn [Service.average_score Service.summarize]. rewrite length_map.
    destruct pairs as [|p pairs']; [simpl; lra|].
    change (length (p :: pairs')) with (S (length pairs')) in *.
    simpl map. cbv iota. apply average_bounds; [lra|]. lra.
  - cbn [Service.average_confidence Service.summarize]. rewrite length_map.
    destruct pairs as [|p pairs']; [simpl; lra|].
    change (length (p :: pairs')) with (S (length pairs')) in *.
    simpl map. cbv iota. apply average_bounds; [lra|]. lra.
Qed.

End ServiceFacts.

(** ** The application: constructing the text processor and start-up *)

Section StartupFacts.

Variable TRANSFORMERS_AVAILABLE : bool.
Variable faults : Method → option exn.
Variable SentenceTransformer : result Model.
Variable test_encode : Model → result unit.
Variable nltk_download : result unit.
Variable new_PorterStemmer : result TextProcessor.PorterStemmer.
Variable stopwords_words : result (list string).
Variable unbound_local : string → string.
Variable validation_error : Q → Q → Q → string.

Lemma init_raises :
  TextProcessor.__init__
    nltk_download new_PorterStemmer stopwords_words unbound_local
  = Raise (Exception (unbound_local "NLTK_AVAILABLE")).
Proof.
  unfold TextProcessor.__init__, TextProcessor.read_local.
  by rewrite lookup_empty.
Qed.

(** X30. [TextProcessor()] never returns an object: whatever NLTK does,
    [__init__] raises the [UnboundLocalError] of its read of
    [NLTK_AVAILABLE] in line 40, before the stop words are set. *)
Theorem text_processor_init_always_raises :
  TextProcessor.__init__
    nltk_download new_PorterStemmer stopwords_words unbound_local
  = Raise (Exception (unbound_local "NLTK_AVAILABLE"))
  ∧ ∀ processor,
      TextProcessor.__init__
        nltk_download new_PorterStemmer stopwords_words unbound_local
      ≠ Return processor.
Proof.
  split.
  - apply init_raises.
  - intros processor. by rewrite init_raises.
Qed.

(** X31. The application never comes up: whatever the libraries do, the
    start-up part of [lifespan] ends by raising the error of
    [TextProcessor()] again and leaves both globals unset; and with the
    globals unset, a request to either evaluation endpoint is answered
    with HTTP 503 by a dependency and never reaches the coroutine. *)
Theorem service_never_comes_up :
  let startup :=
    Service.lifespan_startup TRANSFORMERS_AVAILABLE
      SentenceTransformer test_encode
      nltk_download new_PorterStemmer stopwords_words unbound_local
      Service.initial_globals in
  startup.2 = Raise (Exception (unbound_local "NLTK_AVAILABLE"))
  ∧ Service.semantic_evaluator startup.1 = None
  ∧ Service.text_processor startup.1 = None
  ∧ (∀ request,
       ∃ detail,
         Service.post_evaluate TRANSFORMERS_AVAILABLE faults validation_error
           startup.1 request
         = Service.HTTPException 503 detail)
  ∧ (∀ evaluations,
       ∃ detail,
         Service.post_batch_evaluate TRANSFORMERS_AVAILABLE faults
           validation_error startup.1 evaluations
         = Service.HTTPException 503 detail).
Proof.
  cbv zeta. unfold Service.lifespan_startup. rewrite init_raises.
  cbn [fst snd]. split; [done|]. split; [done|]. split; [done|].
  split; intros ?; eexists;
    unfold Service.post_evaluate, Service.post_batch_evaluate,
      Service.serve, Service.get_evaluator; reflexivity.
Qed.

End StartupFacts.

(** ** The conditional properties on concrete inputs *)

Section Instances.

Import TextProcessor SemanticEvaluator.
Local Open Scope Q_scope.

Lemma suggestions_for_blank_answer_witness :
  generate_suggestions fallback_stop_words "   " "Water boils at 100 degrees"
    (1#2)
  = ["Provide a complete answer to the question."].
Proof.
  exact (suggestions_for_blank_answer fallback_stop_words "   "
           "Water boils at 100 degrees" (1#2) eq_refl).
Defined.

Lemma suggestions_grammar_iff_witness :
  "Check your grammar and sentence structure."
    ∈ generate_suggestions fallback_stop_words
        "water water boils boils. at at 100" "Water boils at 100 degrees"
        (1#2)
  ↔ _has_grammar_issues "water water boils boils. at at 100" = true.
Proof.
  exact (suggestions_grammar_iff fallback_stop_words
           "water water boils boils. at at 100" "Water boils at 100 degrees"
           (1#2) eq_refl).
Defined.

Lemma suggestions_follow_score_witness :
  ("Review the fundamental concepts of this topic."
     ∈ generate_suggestions fallback_stop_words "Water boils"
         "Water boils at 100 degrees" (1#5)
   ↔ 1#5 < 3#10)
  ∧ ("Make sure you understand what the question is asking."
       ∈ generate_suggestions fallback_stop_words "Water boils"
           "Water boils at 100 degrees" (1#5)
     ↔ 1#5 < 3#10)
  ∧ ("You have the basic idea, but add more specific details."
       ∈ generate_suggestions fallback_stop_words "Water boils"
           "Water boils at 100 degrees" (1#5)
     ↔ 3#10 <= 1#5 ∧ 1#5 < 6#10)
  ∧ ("Include examples or explanations to support your points."
       ∈ generate_suggestions fallback_stop_words "Water boils"
           "Water boils at 100 degrees" (1#5)
     ↔ 3#10 <= 1#5 ∧ 1#5 < 6#10)
  ∧ ("Good understanding! Add a bit more depth to your explanation."
       ∈ generate_suggestions fallback_stop_words "Water boils"
           "Water boils at 100 degrees" (1#5)
     ↔ 6#10 <= 1#5 ∧ 1#5 < 8#10).
Proof.
  exact (suggestions_follow_score fallback_stop_words "Water boils"
           "Water boils at 100 degrees" (1#5) eq_refl).
Defined.

Lemma final_score_monotone_witness :
  _calculate_final_score (1#2)
    (_analyze_answer_components "" "Water boils at 100 degrees" "Water boils")
    None
  <= _calculate_final_score (3#4)
       (_analyze_answer_components "" "Water boils at 100 degrees"
          "Water boils")
       None.
Proof.
  apply (final_score_monotone (1#2) (3#4)). unfold Qle. simpl. lia.
Defined.

Lemma calculate_confidence_monotone_witness :
  _calculate_confidence true Cases.without_model (1#2)
    (_analyze_answer_components "" "Water boils at 100 degrees" "Water boils")
    11
  <= _calculate_confidence true Cases.without_model (3#4)
       (_analyze_answer_components "" "Water boils at 100 degrees"
          "Water boils")
       11.
Proof.
  apply (calculate_confidence_monotone true Cases.without_model (1#2) (3#4)).
  unfold Qle. simpl. lia.
Defined.

Lemma fallback_identical_answer_witness :
  let r := _evaluate_fallback "" "Water boils at 100 degrees"
             "Water boils at 100 degrees" 5 None in
  match size (Spec.tokenSet "Water boils at 100 degrees") with
  | O => score r == 3#10
  | S _ => score r == 1 ∧ confidence r == 80
           ∧ feedback r = Spec.excellent_fallback
  end.
Proof.
  exact (fallback_identical_answer "" "Water boils at 100 degrees" 5 None
           eq_refl).
Defined.

Lemma batch_evaluate_not_loaded_witness :
  batch_evaluate true no_faults __init__ [] = Return []
  ∧ batch_evaluate true no_faults __init__
      [Cases.sample_item; Cases.sample_item]
    = Raise Spec.not_loaded.
Proof.
  exact (batch_evaluate_not_loaded true no_faults __init__
           Cases.sample_item [Cases.sample_item]
           "What does photosynthesis do?"
           "Photosynthesis converts light energy into chemical energy"
           "Plants convert light into chemical energy"
           eq_refl eq_refl eq_refl eq_refl).
Defined.

Lemma failed_load_grades_by_fallback_witness :
  evaluate true no_faults
    (load_model true (Raise (Exception "OSError")) (λ _, Return ()) __init__)
    "" "Water boils at 100 degrees" "Water boils" 5 None
  = Return (_evaluate_fallback "" "Water boils at 100 degrees" "Water boils"
              5 None).
Proof.
  exact (failed_load_grades_by_fallback true (λ _, Return ())
           (Exception "OSError") "" "Water boils at 100 degrees"
           "Water boils" 5 None eq_refl).
Defined.

Lemma evaluate_answer_symbols_only_witness :
  ∃ response,
    Service.evaluate_answer true Cases.all_defect
      (Cases.with_model Cases.failing_model) Cases.sample_processor
      Cases.plain_validation_error Cases.symbols_request
    = Service.OK response
    ∧ Service.score response = 0
    ∧ Service.confidence response = 100
    ∧ Service.semanticSimilarity response = 0
    ∧ Service.feedback response = "No answer provided.".
Proof.
  exact (evaluate_answer_symbols_only true
           (Cases.with_model Cases.failing_model) Cases.sample_processor
           Cases.plain_validation_error Cases.all_defect
           Cases.symbols_request eq_refl eq_refl).
Defined.

Lemma evaluate_answer_without_model_witness :
  ∃ response,
    Service.evaluate_answer false no_faults Cases.without_model
      Cases.sample_processor Cases.plain_validation_error Cases.sample_request
    = Service.OK response
    ∧ 0 <= Service.score response <= 1
    ∧ 0 <= Service.confidence response <= 100
    ∧ 0 <= Service.semanticSimilarity response <= 1.
Proof.
  exact (evaluate_answer_without_model_returns false Cases.without_model
           Cases.sample_processor Cases.plain_validation_error
           Cases.sample_request eq_refl (or_introl eq_refl)).
Defined.

Lemma evaluate_answer_needs_cosine_witness :
  (0 <= 4#5 <= 1 →
   ∃ response,
     Service.evaluate_answer true no_faults
       (Cases.with_model (Cases.constant_model (4#5))) Cases.sample_processor
       Cases.plain_validation_error Cases.sample_request
     = Service.OK response
     ∧ Service.semanticSimilarity response = 4#5
     ∧ 0 <= Service.score response <= 1
     ∧ 10 <= Service.confidence response <= 95)
  ∧ (¬ (0 <= 4#5 <= 1) →
     ∃ detail,
       Service.evaluate_answer true no_faults
         (Cases.with_model (Cases.constant_model (4#5))) Cases.sample_processor
         Cases.plain_validation_error Cases.sample_request
       = Service.HTTPException 500 detail).
Proof.
  apply (evaluate_answer_needs_cosine_in_range true
           (Cases.with_model (Cases.constant_model (4#5)))
           Cases.sample_processor Cases.plain_validation_error
           Cases.sample_request (Cases.constant_model (4#5)) (4#5));
    first [reflexivity | vm_compute; reflexivity].
Defined.

Lemma batch_evaluate_answers_summary_witness :
  ∃ batch,
    Service.batch_evaluate_answers false no_faults Cases.without_model
      Cases.sample_processor Cases.plain_validation_error
      [Cases.sample_request; Cases.symbols_request]
    = Service.OK batch
    ∧ Service.total_evaluations (Service.summary batch) = 2%nat
    ∧ (Service.excellent (Service.score_distribution (Service.summary batch))
       + Service.good (Service.score_distribution (Service.summary batch))
       + Service.fair (Service.score_distribution (Service.summary batch))
       + Service.poor (Service.score_distribution (Service.summary batch))
       = 2)%nat
    ∧ 0 <= Service.average_score (Service.summary batch) <= 1
    ∧ 0 <= Service.average_confidence (Service.summary batch) <= 100.
Proof.
  eexists. split; [vm_compute; reflexivity|].
  apply (batch_evaluate_answers_summary false Cases.without_model
           Cases.sample_processor Cases.plain_validation_error no_faults
           [Cases.sample_request; Cases.symbols_request]).
  vm_compute. reflexivity.
Defined.

End Instances.

(** ** The grammar heuristic *)

Section GrammarFacts.

Import TextProcessor.

Lemma split_on_absent sep s :
  Py.any (λ c, Ascii.eqb c sep) s = false → Py.split_on sep s = [s].
Proof.
  induction s as [|c s IH]; [done|]. simpl.
  intros [Hc Hs]%orb_false_iff. by rewrite Hc, (IH Hs).
Qed.

Lemma filter_length_le {A} (f : A → bool) (l : list A) :
  length (List.filter f l) ≤ length l.
Proof.
  induction l as [|x l IH]; [done|]. simpl. destruct (f x); simpl; lia.
Qed.

(** X29. A text without a full stop in which no word is written twice
    in a row is never reported: alone, a missing capital and an
    over-long sentence stay within the two issues that are allowed. *)
Theorem single_sentence_without_repeats_passes text :
  Py.any (λ c, Ascii.eqb c ".") text = false →
  Py.count_adjacent_equal (Py.split (Py.lower text)) = 0 →
  _has_grammar_issues text = false.
Proof.
  intros Hdot Hrep. unfold _has_grammar_issues. cbv zeta.
  rewrite Hrep, (split_on_absent _ _ Hdot).
  apply Nat.ltb_ge.
  pose proof (filter_length_le
                (λ sentence, Py.starts_without_upper (Py.strip sentence))
                [text]).
  pose proof (filter_length_le
                (λ sentence, (30 <? length (Py.split sentence))%nat) [text]).
  simpl length in *. lia.
Qed.

Lemma single_sentence_without_repeats_witness :
  _has_grammar_issues "plants convert light into chemical energy" = false.
Proof.
  exact (single_sentence_without_repeats_passes
           "plants convert light into chemical energy" eq_refl eq_refl).
Defined.

End GrammarFacts.
